(** * Student Management System: the record store and its command handlers

    A shallow embedding of [src/main.py] (class [StudentManagementSystem])
    and the properties its specification states about it.

    Conventions of the embedding.
    - A Python [int] is a [Z]; a Python [float] is a binary64 [float]
      (Rocq's primitive floats, so NaN, the infinities and signed zeros
      behave as in CPython); a Python [str] is the list of its code points.
    - A student is the four-key dict the program builds in [add_student];
      the collection [self.students] is a list of them. Every slot of the
      list holds an object of its own (the program only appends fresh dicts,
      removes and reorders), so an object is identified by its position.
    - The terminal is a finite list of lines still to be typed ([input]
      raises [EOFError] when it is exhausted) and the list of messages
      printed so far. Colours, prompts and [clear_screen] are not modelled.
    - The file system is a finite map from paths to contents, with the
      paths that cannot be opened for reading or for writing.
    - What the program takes from Python's libraries ([str] methods over
      Unicode, [int()], [float()], [repr], [json]) is the interface
      [PyLib]; [ascii_py] is an ASCII instance of it. *)

From Stdlib Require Import ZArith QArith Floats Lia.
From Stdlib Require Import Strings.String Strings.Ascii DecimalString.
From stdpp Require Import list gmap sorting.

#[local] Open Scope Z_scope.
#[local] Set Warnings "-inexact-float".

(** ** Python strings *)

Definition pystr : Type := list N.

(** A string literal of the source, as code points. *)
Definition lit (s : string) : pystr := N_of_ascii <$> list_ascii_of_string s.

(** [a < b] on [str]: lexicographic on code points. *)
Fixpoint str_lt (a b : pystr) : bool :=
  match a, b with
  | _, [] => false
  | [], _ :: _ => true
  | x :: a', y :: b' =>
      if (x <? y)%N then true
      else if (y <? x)%N then false
      else str_lt a' b'
  end.

Fixpoint is_prefix (p s : pystr) : bool :=
  match p, s with
  | [], _ => true
  | _ :: _, [] => false
  | x :: p', y :: s' => bool_decide (x = y) && is_prefix p' s'
  end.

(** [needle in hay] on [str]: substring test. *)
Fixpoint str_in (needle hay : pystr) : bool :=
  is_prefix needle hay ||
  match hay with
  | [] => false
  | _ :: hay' => str_in needle hay'
  end.

Fixpoint drop_while (p : N → bool) (s : pystr) : pystr :=
  match s with
  | [] => []
  | c :: s' => if p c then drop_while p s' else s
  end.

(** [str(n)] for an [int]. *)
Definition str_of_int (n : Z) : pystr := lit (NilZero.string_of_int (Z.to_int n)).

(** ** The student record *)

Record student : Type := Student {
  roll_number : Z;
  name : pystr;
  age : Z;
  cgpa : float;
}.

Definition set_name (v : pystr) (s : student) : student :=
  Student (roll_number s) v (age s) (cgpa s).
Definition set_age (v : Z) (s : student) : student :=
  Student (roll_number s) (name s) v (cgpa s).
Definition set_cgpa (v : float) (s : student) : student :=
  Student (roll_number s) (name s) (age s) v.

(** [a == b] on two student dicts that are different objects: key by key,
    floats by IEEE equality. *)
Definition student_eqb (a b : student) : bool :=
  (roll_number a =? roll_number b) && bool_decide (name a = name b) &&
  (age a =? age b) && (cgpa a =? cgpa b)%float.

(** ** The part of Python's libraries the program calls *)

Class PyLib : Type := {
  (** [c.isalpha()] and [c.isspace()] for a one-character string *)
  py_isalpha : N → bool;
  py_isspace : N → bool;
  (** [s.lower()] *)
  py_lower : pystr → pystr;
  (** [int(s)] and [float(s)]; [None] is [ValueError] *)
  py_int : pystr → option Z;
  py_float : pystr → option float;
  (** [repr(x)] of a float *)
  py_repr_float : float → pystr;
  (** the text [json.dump(students, file, indent=4)] writes *)
  json_dump : list student → pystr;
  (** [json.load] of a text; [None] when it raises. Texts whose value is
      not a list of student dicts are outside the typed model. *)
  json_load : pystr → option (list student);
}.

Section Validation.
Context `{PyLib}.

(** [s.strip()] *)
Definition strip (s : pystr) : pystr :=
  reverse (drop_while py_isspace (reverse (drop_while py_isspace s))).

(** main.py 55-57 *)
Definition validate_name (name : pystr) : bool :=
  negb (bool_decide (strip name = [])) &&
  forallb (λ c, py_isalpha c || py_isspace c) name.

(** main.py 59-64 *)
Definition validate_roll_number (students : list student) (roll : Z) : bool :=
  (0 <? roll) && negb (existsb (λ s, roll_number s =? roll) students).

(** main.py 66-68 *)
Definition validate_age (age : Z) : bool := (5 <=? age) && (age <=? 120).

(** main.py 70-72 *)
Definition validate_cgpa (cgpa : float) : bool :=
  ((0 <=? cgpa) && (cgpa <=? 4))%float.
End Validation.

(** ** The process state *)

Inductive exn : Type := ValueError | EOFError | OSError.

Inductive result (A : Type) : Type :=
  | Ok (a : A)
  | Raise (e : exn).
Arguments Ok {A} a.
Arguments Raise {A} e.

(** The four sort orders of [sort_students], by menu number. *)
Inductive sort_key : Type := ByRoll | ByName | ByAge | ByCgpa.

(** What the program prints, one constructor per message of the source. *)
Inductive msg : Type :=
  | ErrorLoading (e : exn)
  | ErrorSaving (e : exn)
  | AddHeading | InvalidNameLetters | InvalidRollNumber | EnterValidNumber
  | AgeOutOfRange | CgpaOutOfRange | StudentAdded | ErrorOccurred (e : exn)
  | AllHeading | NoStudentsFound | TableHeader | TableRule | TableRow (s : student)
  | SearchHeading | NoStudentsToSearch | SearchMenu
  | NoRollMatch | NoNameMatch | NoAgeMatch | NoCgpaMatch
  | InvalidChoice | EnterValidNumbers
  | UpdateHeading | CurrentDetails (s : student)
  | NameUpdated | InvalidName | AgeUpdated | InvalidAge | CgpaUpdated | InvalidCgpa
  | UpdateCancelled | EnterValidInput
  | DeleteHeading | StudentDeleted | DeletionCancelled
  | SortHeading | NoStudentsToSort | SortMenu | SortedBy (k : sort_key)
  | SortingCancelled | EnterAValidNumber
  | ExportHeading | NoStudentsToExport | Exported | ErrorExporting (e : exn)
  | StatsHeading | NoStudentData | TotalStudents (n : nat) | AverageAge | AverageCgpa
  | AgeDistribution | CgpaDistribution | GroupCount (label : string) (count : nat)
  | Menu | Goodbye | InvalidMenuChoice.

Record world : Type := World {
  students : list student;      (** [self.students] *)
  stdin : list pystr;           (** the lines still to be typed *)
  stdout : list msg;            (** the messages printed, oldest first *)
  files : gmap pystr pystr;     (** the files that exist, with their text *)
  can_read : pystr → bool;      (** [open(path, 'r')] succeeds *)
  can_write : pystr → bool;     (** [open(path, 'w')] succeeds *)
  clock : nat → pystr;          (** the formatted time of the n-th reading *)
  ticks : nat;                  (** how often the clock has been read *)
}.

Definition set_students (v : list student) (w : world) : world :=
  World v (stdin w) (stdout w) (files w) (can_read w) (can_write w) (clock w) (ticks w).
Definition set_stdin (v : list pystr) (w : world) : world :=
  World (students w) v (stdout w) (files w) (can_read w) (can_write w) (clock w) (ticks w).
Definition set_stdout (v : list msg) (w : world) : world :=
  World (students w) (stdin w) v (files w) (can_read w) (can_write w) (clock w) (ticks w).
Definition set_files (v : gmap pystr pystr) (w : world) : world :=
  World (students w) (stdin w) (stdout w) v (can_read w) (can_write w) (clock w) (ticks w).
Definition set_ticks (v : nat) (w : world) : world :=
  World (students w) (stdin w) (stdout w) (files w) (can_read w) (can_write w) (clock w) v.

(** A method of the class: it runs on a state, returns or raises, and
    leaves a state. *)
Definition M (A : Type) : Type := world → result A * world.

#[global] Instance M_ret : MRet M := λ A a w, (Ok a, w).
#[global] Instance M_bind : MBind M := λ A B f m w,
  match m w with
  | (Ok a, w') => f a w'
  | (Raise e, w') => (Raise e, w')
  end.

Definition get_students : M (list student) := λ w, (Ok (students w), w).
Definition put_students (l : list student) : M unit := λ w, (Ok tt, set_students l w).
Definition raise {A} (e : exn) : M A := λ w, (Raise e, w).

(** [try: body except Exception as e: handler(e)] *)
Definition try_except {A} (body : M A) (handler : exn → M A) : M A := λ w,
  match body w with
  | (Ok a, w') => (Ok a, w')
  | (Raise e, w') => handler e w'
  end.

(** [try: body except ValueError: handler]; other exceptions pass. *)
Definition try_except_ValueError {A} (body : M A) (handler : M A) : M A :=
  try_except body (λ e, match e with ValueError => handler | _ => raise e end).

Definition print (m : msg) : M unit := λ w, (Ok tt, set_stdout (stdout w ++ [m]) w).

(** [input(prompt)]: the next line, or [EOFError]. *)
Definition input : M pystr := λ w,
  match stdin w with
  | [] => (Raise EOFError, w)
  | line :: rest => (Ok line, set_stdin rest w)
  end.

(** [while True:] around one [input]: every round reads a line and either
    breaks with a value or prints a message and goes round again. *)
Fixpoint input_until_lines {A} (attempt : pystr → A + msg)
    (lines : list pystr) (out : list msg) : result A * list pystr * list msg :=
  match lines with
  | [] => (Raise EOFError, [], out)
  | line :: rest =>
      match attempt line with
      | inl a => (Ok a, rest, out)
      | inr m => input_until_lines attempt rest (out ++ [m])
      end
  end.

Definition input_until {A} (attempt : pystr → A + msg) : M A := λ w,
  let '(r, rest, out) := input_until_lines attempt (stdin w) (stdout w) in
  (r, set_stdout out (set_stdin rest w)).

(** [with open(path, 'w') as file: file.write(text)] *)
Definition write_file (path text : pystr) : M unit := λ w,
  if can_write w path then (Ok tt, set_files (<[path := text]> (files w)) w)
  else (Raise OSError, w).

(** [datetime.now().strftime(...)] *)
Definition now_strftime : M pystr := λ w,
  (Ok (clock w (ticks w)), set_ticks (S (ticks w)) w).

(** main.py 12-14 *)
Definition DATA_FILE : pystr := lit "students.json".
Definition BACKUP_DIR : pystr := lit "backups".
Definition CSV_EXPORT_FILE : pystr := lit "students_export.csv".

(** [os.path.join(BACKUP_DIR, f"students_backup_{timestamp}.json")] *)
Definition backup_file (timestamp : pystr) : pystr :=
  BACKUP_DIR ++ lit "/" ++ lit "students_backup_" ++ timestamp ++ lit ".json".

(** [os.path.exists(path)] *)
Definition path_exists (path : pystr) : M bool := λ w,
  (Ok (bool_decide (is_Some (files w !! path))), w).

(** [with open(path, 'r') as file: file.read()] *)
Definition read_file (path : pystr) : M pystr := λ w,
  match files w !! path with
  | Some text => if can_read w path then (Ok text, w) else (Raise OSError, w)
  | None => (Raise OSError, w)
  end.

(** ** [list.sort] and [list.remove] *)

(** [l.sort(key=key, reverse=reverse)] compares keys with [<] only and is
    stable; with [reverse] the list is reversed, sorted and reversed again.
    The stable sort is written as an insertion sort: it is the result of
    CPython's sort whenever [<] orders the keys consistently. *)
Section ListSort.
Context {A K : Type} (lt : K → K → bool) (key : A → K).

Fixpoint insert_sorted (x : A) (l : list A) : list A :=
  match l with
  | [] => [x]
  | y :: l' => if lt (key y) (key x) then y :: insert_sorted x l' else x :: l
  end.

Fixpoint stable_sort (l : list A) : list A :=
  match l with
  | [] => []
  | x :: l' => insert_sorted x (stable_sort l')
  end.

Definition list_sort (reversed : bool) (l : list A) : list A :=
  if reversed then reverse (stable_sort (reverse l)) else stable_sort l.
End ListSort.

(** [l.remove(x)] where [x] is the object in slot [i] of [l]: the first
    slot whose object is [x] itself or equals it goes; [None] is the
    [ValueError] of a list without such a slot. *)
Fixpoint remove_from (i : nat) (x : student) (j : nat) (l : list student)
    : option (list student) :=
  match l with
  | [] => None
  | y :: l' =>
      if bool_decide (j = i) || student_eqb y x then Some l'
      else (y ::.) <$> remove_from i x (S j) l'
  end.

Definition list_remove (i : nat) (x : student) (l : list student)
    : option (list student) := remove_from i x 0 l.

(** ** The CSV text of [csv.DictWriter] (excel dialect) *)

Definition csv_special (c : N) : bool :=
  bool_decide (c = 44%N) || bool_decide (c = 34%N) ||
  bool_decide (c = 13%N) || bool_decide (c = 10%N).

(** A cell: quoted when it holds a comma, a quote or a line break, its
    quotes doubled. *)
Definition csv_cell (s : pystr) : pystr :=
  if existsb csv_special s
  then [34%N] ++ (s ≫= λ c, if bool_decide (c = 34%N) then [c; c] else [c]) ++ [34%N]
  else s.

Fixpoint join (sep : pystr) (cells : list pystr) : pystr :=
  match cells with
  | [] => []
  | [c] => c
  | c :: cells' => c ++ sep ++ join sep cells'
  end.

Definition csv_row (cells : list pystr) : pystr :=
  join (lit ",") (csv_cell <$> cells) ++ [13%N; 10%N].

Definition fieldnames : list pystr :=
  [lit "roll_number"; lit "name"; lit "age"; lit "cgpa"].

(** ** The distributions of [show_statistics] *)

(** A dict of counters, in insertion order. *)
Definition groups : Type := list (string * nat).

(** [g[label] += 1] *)
Fixpoint bump (label : string) (g : groups) : groups :=
  match g with
  | [] => []
  | (k, n) :: g' =>
      if String.eqb k label then (k, S n) :: g' else (k, n) :: bump label g'
  end.

(** main.py 378-381: the branch an age takes. *)
Definition age_group (age : Z) : string :=
  if age <? 18 then "<18"%string
  else if (18 <=? age) && (age <=? 22) then "18-22"%string
  else if (23 <=? age) && (age <=? 25) then "23-25"%string
  else ">25"%string.

(** main.py 392-395: the branch a CGPA takes. *)
Definition cgpa_group (cgpa : float) : string :=
  if (cgpa <? 2)%float then "<2.0"%string
  else if ((2 <=? cgpa) && (cgpa <? 3))%float then "2.0-2.9"%string
  else if ((3 <=? cgpa) && (cgpa <? 3.5))%float then "3.0-3.5"%string
  else ">3.5"%string.

(** main.py 376-381 *)
Definition age_groups (ages : list Z) : groups :=
  foldl (λ g age, bump (age_group age) g)
        [("<18"%string, 0%nat); ("18-22"%string, 0%nat);
         ("23-25"%string, 0%nat); (">25"%string, 0%nat)] ages.

(** main.py 390-395 *)
Definition cgpa_groups (cgpas : list float) : groups :=
  foldl (λ g cgpa, bump (cgpa_group cgpa) g)
        [("<2.0"%string, 0%nat); ("2.0-2.9"%string, 0%nat);
         ("3.0-3.5"%string, 0%nat); (">3.5"%string, 0%nat)] cgpas.

(** main.py 383-386 and 397-400: a line for every group that is not empty. *)
Definition group_lines (g : groups) : list msg :=
  (λ kn, GroupCount kn.1 kn.2) <$> filter (λ kn, (0 < kn.2)%nat) g.

(** ** The methods of [StudentManagementSystem] *)

Section Methods.
Context `{PyLib}.

(** [int(line)] and [float(line)] inside a [try] *)
Definition parse_int (line : pystr) : M Z :=
  match py_int line with Some n => mret n | None => raise ValueError end.
Definition parse_float (line : pystr) : M float :=
  match py_float line with Some x => mret x | None => raise ValueError end.

(** main.py 26-35 *)
Definition load_students : M (list student) :=
  try_except
    (present ← path_exists DATA_FILE;
     if (present : bool) then
       text ← read_file DATA_FILE;
       match json_load text with
       | Some l => mret l
       | None => raise ValueError
       end
     else mret [])
    (λ e, print (ErrorLoading e);; mret []).

(** main.py 37-49 *)
Definition save_students : M unit :=
  try_except
    (l ← get_students;
     write_file DATA_FILE (json_dump l);;
     timestamp ← now_strftime;
     write_file (backup_file timestamp) (json_dump l))
    (λ e, print (ErrorSaving e)).

(** main.py 17-19; the backup directory is not part of the file model. *)
Definition init : M unit :=
  l ← load_students;
  put_students l.

(** main.py 74-129 *)
Definition add_student : M unit :=
  print AddHeading;;
  try_except
    (name ← input_until (λ line,
       let name := strip line in
       if validate_name name then inl name else inr InvalidNameLetters);
     l ← get_students;
     roll_number ← input_until (λ line,
       match py_int line with
       | Some n => if validate_roll_number l n then inl n else inr InvalidRollNumber
       | None => inr EnterValidNumber
       end);
     age ← input_until (λ line,
       match py_int line with
       | Some n => if validate_age n then inl n else inr AgeOutOfRange
       | None => inr EnterValidNumber
       end);
     cgpa ← input_until (λ line,
       match py_float line with
       | Some x => if validate_cgpa x then inl x else inr CgpaOutOfRange
       | None => inr EnterValidNumber
       end);
     l ← get_students;
     put_students (l ++ [Student roll_number name age cgpa]);;
     save_students;;
     print StudentAdded)
    (λ e, print (ErrorOccurred e)).

Definition print_all (ms : list msg) : M unit := λ w,
  (Ok tt, set_stdout (stdout w ++ ms) w).

(** main.py 131-159; [None] and the empty list both show [self.students]. *)
Definition view_all_students (students_list : option (list student)) : M unit :=
  l ← get_students;
  let shown :=
    match students_list with
    | Some (s :: rest) => s :: rest
    | _ => l
    end in
  print AllHeading;;
  match shown with
  | [] => print NoStudentsFound;; _ ← input; mret tt
  | _ =>
      print TableHeader;;
      print TableRule;;
      print_all (TableRow <$> shown);;
      _ ← input;
      mret tt
  end.

(** The slots of the collection with their objects. *)
Definition slots (l : list student) : list (nat * student) := imap pair l.

(** main.py 190-193 and its two copies: show the matches, return the
    match when there is exactly one. *)
Definition show_matches (matches : list (nat * student)) (none : msg)
    : M (option (nat * student)) :=
  match matches with
  | [] => print none;; mret None
  | _ =>
      view_all_students (Some (snd <$> matches));;
      mret (match matches with [m] => Some m | _ => None end)
  end.

(** main.py 161-222. The student returned is an object of the collection:
    its slot comes with it. *)
Definition search_student : M (option (nat * student)) :=
  print SearchHeading;;
  l ← get_students;
  match l with
  | [] => print NoStudentsToSearch;; mret None
  | _ =>
      print SearchMenu;;
      try_except_ValueError
        (line ← input;
         choice ← parse_int line;
         if choice =? 1 then
           line ← input;
           roll ← parse_int line;
           match list_find (λ s, roll_number s = roll) l with
           | Some m => mret (Some m)
           | None => print NoRollMatch;; mret None
           end
         else if choice =? 2 then
           line ← input;
           let name' := py_lower line in
           show_matches
             (filter (λ m, str_in name' (py_lower (name m.2)) = true) (slots l))
             NoNameMatch
         else if choice =? 3 then
           line ← input;
           min_age ← parse_int line;
           line ← input;
           max_age ← parse_int line;
           show_matches
             (filter (λ m, min_age ≤ age m.2 ∧ age m.2 ≤ max_age) (slots l))
             NoAgeMatch
         else if choice =? 4 then
           line ← input;
           min_cgpa ← parse_float line;
           line ← input;
           max_cgpa ← parse_float line;
           show_matches
             (filter (λ m, ((min_cgpa <=? cgpa m.2) && (cgpa m.2 <=? max_cgpa))%float = true)
                     (slots l))
             NoCgpaMatch
         else if choice =? 5 then mret None
         else print InvalidChoice;; mret None)
        (print EnterValidNumbers;; mret None)
  end.

(** main.py 224-276 *)
Definition update_student : M unit :=
  print UpdateHeading;;
  found ← search_student;
  match found with
  | None => mret tt
  | Some (i, student) =>
      print (CurrentDetails student);;
      try_except_ValueError
        (line ← input;
         choice ← parse_int line;
         if choice =? 1 then
           line ← input;
           let new_name := strip line in
           if validate_name new_name then
             l ← get_students;
             put_students (<[i := set_name new_name student]> l);;
             save_students;;
             print NameUpdated
           else print InvalidName
         else if choice =? 2 then
           line ← input;
           new_age ← parse_int line;
           if validate_age new_age then
             l ← get_students;
             put_students (<[i := set_age new_age student]> l);;
             save_students;;
             print AgeUpdated
           else print InvalidAge
         else if choice =? 3 then
           line ← input;
           new_cgpa ← parse_float line;
           if validate_cgpa new_cgpa then
             l ← get_students;
             put_students (<[i := set_cgpa new_cgpa student]> l);;
             save_students;;
             print CgpaUpdated
           else print InvalidCgpa
         else if choice =? 4 then print UpdateCancelled
         else print InvalidChoice)
        (print EnterValidInput)
  end.

(** main.py 278-293 *)
Definition delete_student : M unit :=
  print DeleteHeading;;
  found ← search_student;
  match found with
  | None => mret tt
  | Some (i, student) =>
      line ← input;
      let confirm := py_lower line in
      if bool_decide (confirm = lit "y") then
        l ← get_students;
        match list_remove i student l with
        | Some l' => put_students l'
        | None => raise ValueError
        end;;
        save_students;;
        print StudentDeleted
      else print DeletionCancelled
  end.

(** main.py 315, 318, 321, 324 *)
Definition sort_by (k : sort_key) (l : list student) : list student :=
  match k with
  | ByRoll => list_sort Z.ltb roll_number false l
  | ByName => list_sort str_lt (λ x, py_lower (name x)) false l
  | ByAge => list_sort Z.ltb age false l
  | ByCgpa => list_sort PrimFloat.ltb cgpa true l
  end.

Definition sort_choice (choice : Z) : option sort_key :=
  if choice =? 1 then Some ByRoll
  else if choice =? 2 then Some ByName
  else if choice =? 3 then Some ByAge
  else if choice =? 4 then Some ByCgpa
  else None.

(** main.py 295-337 *)
Definition sort_students : M unit :=
  print SortHeading;;
  l ← get_students;
  match l with
  | [] => print NoStudentsToSort
  | _ =>
      print SortMenu;;
      try_except_ValueError
        (line ← input;
         choice ← parse_int line;
         match sort_choice choice with
         | Some k =>
             put_students (sort_by k l);;
             print (SortedBy k);;
             save_students;;
             view_all_students None
         | None =>
             if choice =? 5 then print SortingCancelled
             else print InvalidChoice
         end)
        (print EnterAValidNumber)
  end.

(** The text [writeheader] and [writerows] produce. *)
Definition csv_record (s : student) : list pystr :=
  [str_of_int (roll_number s); name s; str_of_int (age s); py_repr_float (cgpa s)].

Definition csv_text (l : list student) : pystr :=
  csv_row fieldnames ++ mjoin (csv_row ∘ csv_record <$> l).

(** main.py 339-355 *)
Definition export_to_csv : M unit :=
  print ExportHeading;;
  l ← get_students;
  match l with
  | [] => print NoStudentsToExport
  | _ =>
      try_except
        (write_file CSV_EXPORT_FILE (csv_text l);;
         print Exported)
        (λ e, print (ErrorExporting e))
  end.

(** main.py 357-400; the two averages are printed but their digits are
    not modelled. *)
Definition show_statistics : M unit :=
  print StatsHeading;;
  l ← get_students;
  match l with
  | [] => print NoStudentData
  | _ =>
      let total := length l in
      let ages := age <$> l in
      let cgpas := cgpa <$> l in
      print (TotalStudents total);;
      print AverageAge;;
      print AverageCgpa;;
      print AgeDistribution;;
      print_all (group_lines (age_groups ages));;
      print CgpaDistribution;;
      print_all (group_lines (cgpa_groups cgpas))
  end.

(** main.py 427-459: what one menu choice does; [false] leaves the loop. *)
Definition dispatch (choice : pystr) : M bool :=
  if bool_decide (choice = lit "0") then print Goodbye;; mret false
  else if bool_decide (choice = lit "1") then add_student;; mret true
  else if bool_decide (choice = lit "2") then view_all_students None;; mret true
  else if bool_decide (choice = lit "3") then
    found ← search_student;
    l ← get_students;
    (if bool_decide (is_Some found) && bool_decide (1 < length l)%nat
     then _ ← input; mret tt else mret tt);;
    mret true
  else if bool_decide (choice = lit "4") then update_student;; mret true
  else if bool_decide (choice = lit "5") then delete_student;; mret true
  else if bool_decide (choice = lit "6") then sort_students;; mret true
  else if bool_decide (choice = lit "7") then export_to_csv;; mret true
  else if bool_decide (choice = lit "8") then show_statistics;; mret true
  else print InvalidMenuChoice;; _ ← input; mret true.

(** main.py 421-465: one round of the menu loop. *)
Definition menu_round : M bool :=
  print Menu;;
  try_except
    (choice ← input;
     dispatch choice)
    (λ e, print (ErrorOccurred e);; _ ← input; mret true).

(** How [run] ends: the user left with 0, or an exception left the loop. *)
Inductive ending : Type := Exited | Crashed (e : exn) | OutOfFuel.

(** main.py 419-465. Every round reads a line, so the loop ends on a
    finite input; [fuel] bounds the rounds. *)
Fixpoint run (fuel : nat) (w : world) : ending * world :=
  match fuel with
  | O => (OutOfFuel, w)
  | S fuel' =>
      match menu_round w with
      | (Ok true, w') => run fuel' w'
      | (Ok false, w') => (Exited, w')
      | (Raise e, w') => (Crashed e, w')
      end
  end.

(** main.py 467-469 *)
Definition main (fuel : nat) (w : world) : ending * world :=
  match init w with
  | (Ok _, w') => run fuel w'
  | (Raise e, w') => (Crashed e, w')
  end.
End Methods.

(** ** An ASCII instance of the library interface

    The behaviour of the library on ASCII text, to run the methods on
    concrete sessions. Numbers are read in plain decimal notation only. *)

Module AsciiLib.
Definition isalpha (c : N) : bool :=
  ((65 <=? c) && (c <=? 90) || (97 <=? c) && (c <=? 122))%N.

Definition isspace (c : N) : bool :=
  ((9 <=? c) && (c <=? 13) || (28 <=? c) && (c <=? 32))%N.

Definition lower (s : pystr) : pystr :=
  (λ c, if (65 <=? c) && (c <=? 90) then c + 32 else c)%N <$> s.

Definition is_digit (c : N) : bool := ((48 <=? c) && (c <=? 57))%N.

(** The number a non-empty run of digits denotes. *)
Definition digits (s : pystr) : option Z :=
  match s with
  | [] => None
  | _ =>
      if forallb is_digit s
      then Some (foldl (λ acc c, 10 * acc + (Z.of_N c - 48)) 0 s)
      else None
  end.

Fixpoint take_while (p : N → bool) (s : pystr) : pystr :=
  match s with
  | [] => []
  | c :: s' => if p c then c :: take_while p s' else []
  end.

Definition trim (s : pystr) : pystr :=
  reverse (drop_while isspace (reverse (drop_while isspace s))).

(** An optional sign in front of [body]. *)
Definition signed {A} (body : pystr → option A) (neg : A → A) (s : pystr)
    : option A :=
  match s with
  | 45%N :: s' => neg <$> body s'
  | 43%N :: s' => body s'
  | _ => body s
  end.

Definition read_int (s : pystr) : option Z := signed digits Z.opp (trim s).

(** [n / 10^k], rounded once: both are floats when they are small. *)
Definition decimal (n : Z) (k : nat) : option float :=
  if (n <? 2 ^ 53) && (k <=? 18)%nat
  then Some (PrimFloat.of_uint63 (Uint63.of_Z n) /
             PrimFloat.of_uint63 (Uint63.of_Z (10 ^ Z.of_nat k)))%float
  else None.

Definition unsigned_float (s : pystr) : option float :=
  let whole := take_while is_digit s in
  match drop_while is_digit s with
  | [] => n ← digits whole; decimal n 0
  | 46%N :: frac =>
      match whole, frac with
      | [], [] => None
      | _, _ => n ← digits (whole ++ frac); decimal n (length frac)
      end
  | _ => None
  end.

Definition read_float (s : pystr) : option float :=
  signed unsigned_float PrimFloat.opp (trim s).

(** The digits of [n] with at least [k + 1] of them, a point before the
    last [k], and no zero at the end of the fraction but the first. *)
Definition point (n : Z) (k : nat) : pystr :=
  let ds := str_of_int n in
  let ds := replicate (S k - length ds) 48%N ++ ds in
  let whole := take (length ds - k) ds in
  let frac := reverse (drop_while (λ c, bool_decide (c = 48%N))
                                (reverse (drop (length ds - k) ds))) in
  whole ++ [46%N] ++ (match frac with [] => [48%N] | _ => frac end).

(** A float written out in full: every finite binary64 number has a
    finite decimal expansion. (CPython prints the shortest digits that
    read back as the same float; the two agree on short fractions.) *)
Definition repr_float (x : float) : pystr :=
  match Prim2SF x with
  | S754_zero s => if s then lit "-0.0" else lit "0.0"
  | S754_infinity s => if s then lit "-inf" else lit "inf"
  | S754_nan => lit "nan"
  | S754_finite s m e =>
      (if s then lit "-" else []) ++
      (if 0 <=? e then point (Z.pos m * 2 ^ e) 0
       else point (Z.pos m * 5 ^ (- e)) (Z.to_nat (- e)))
  end.

(** *** JSON text, as [json.dump(..., indent=4)] lays a list of students out *)

Definition json_string (s : pystr) : pystr :=
  [34%N] ++ (s ≫= λ c, if bool_decide (c = 34%N) || bool_decide (c = 92%N)
                        then [92%N; c] else [c]) ++ [34%N].

Definition json_student (s : student) : pystr :=
  lit "    {" ++ [10%N] ++
  lit "        " ++ json_string (lit "roll_number") ++ lit ": " ++
    str_of_int (roll_number s) ++ lit "," ++ [10%N] ++
  lit "        " ++ json_string (lit "name") ++ lit ": " ++
    json_string (name s) ++ lit "," ++ [10%N] ++
  lit "        " ++ json_string (lit "age") ++ lit ": " ++
    str_of_int (age s) ++ lit "," ++ [10%N] ++
  lit "        " ++ json_string (lit "cgpa") ++ lit ": " ++
    repr_float (cgpa s) ++ [10%N] ++
  lit "    }".

Definition dump (l : list student) : pystr :=
  match l with
  | [] => lit "[]"
  | _ => lit "[" ++ [10%N] ++ join (lit "," ++ [10%N]) (json_student <$> l) ++
         [10%N] ++ lit "]"
  end.

(** A reader for texts of that shape: a list of objects with the four
    keys in this order, with any white space between the tokens. *)
Definition parser (A : Type) : Type := pystr → option (A * pystr).

Definition json_space (c : N) : bool :=
  bool_decide (c = 32%N) || bool_decide (c = 10%N) ||
  bool_decide (c = 13%N) || bool_decide (c = 9%N).

Definition token (t : pystr) : parser unit := λ s,
  let s := drop_while json_space s in
  if is_prefix t s then Some (tt, drop (length t) s) else None.

Definition number_char (c : N) : bool :=
  is_digit c || bool_decide (c = 45%N) || bool_decide (c = 46%N).

Definition number {A} (read : pystr → option A) : parser A := λ s,
  let s := drop_while json_space s in
  x ← read (take_while number_char s);
  Some (x, drop_while number_char s).

Fixpoint string_body (s : pystr) : option (pystr * pystr) :=
  match s with
  | [] => None
  | 34%N :: rest => Some ([], rest)
  | 92%N :: c :: rest => '(body, rest') ← string_body rest; Some (c :: body, rest')
  | c :: rest => '(body, rest') ← string_body rest; Some (c :: body, rest')
  end.

Definition quoted : parser pystr := λ s,
  '(_, s) ← token [34%N] s;
  string_body s.

Definition key {A} (k : string) (value : parser A) : parser A := λ s,
  '(_, s) ← token (json_string (lit k)) s;
  '(_, s) ← token (lit ":") s;
  value s.

Definition object : parser student := λ s,
  '(_, s) ← token (lit "{") s;
  '(r, s) ← key "roll_number" (number read_int) s;
  '(_, s) ← token (lit ",") s;
  '(n, s) ← key "name" quoted s;
  '(_, s) ← token (lit ",") s;
  '(a, s) ← key "age" (number read_int) s;
  '(_, s) ← token (lit ",") s;
  '(c, s) ← key "cgpa" (number read_float) s;
  '(_, s) ← token (lit "}") s;
  Some (Student r n a c, s).

(** The objects after the first, up to the closing bracket. *)
Fixpoint objects (fuel : nat) (s : pystr) : option (list student) :=
  match fuel with
  | O => None
  | S fuel' =>
      match token (lit "]") s with
      | Some (_, rest) =>
          if bool_decide (drop_while json_space rest = []) then Some [] else None
      | None =>
          '(_, s) ← token (lit ",") s;
          '(x, s) ← object s;
          l ← objects fuel' s;
          Some (x :: l)
      end
  end.

Definition load (text : pystr) : option (list student) :=
  '(_, s) ← token (lit "[") text;
  match token (lit "]") s with
  | Some (_, rest) =>
      if bool_decide (drop_while json_space rest = []) then Some [] else None
  | None =>
      '(x, s) ← object s;
      l ← objects (length s) s;
      Some (x :: l)
  end.
End AsciiLib.

#[export] Instance ascii_py : PyLib := {
  py_isalpha := AsciiLib.isalpha;
  py_isspace := AsciiLib.isspace;
  py_lower := AsciiLib.lower;
  py_int := AsciiLib.read_int;
  py_float := AsciiLib.read_float;
  py_repr_float := AsciiLib.repr_float;
  json_dump := AsciiLib.dump;
  json_load := AsciiLib.load;
}.

(** ** Sample sessions *)

Definition world0 (typed : list string) : world :=
  World [] (lit <$> typed) [] ∅ (λ _, true) (λ _, true)
        (λ n, lit "20240101_0000" ++ str_of_int (Z.of_nat n)) 0.

Definition ann : student := Student 1 (lit "Ann Lee") 20 3.5.
Definition bob : student := Student 2 (lit "Bob") 17 2.75.
Definition cat : student := Student 3 (lit "cat") 25 3.5.

(** * Reasoning about methods *)

(** [wp m w Q]: running [m] on [w] ends with a result and a state that
    satisfy [Q]. Methods are total functions, so this is a statement about
    what the method does, not only about what it does if it ends. *)
Definition wp {A} (m : M A) (w : world) (Q : result A → world → Prop) : Prop :=
  Q (m w).1 (m w).2.

(** Only the terminal changed between [w] and [w']. *)
Definition keeps (w w' : world) : Prop :=
  students w' = students w ∧ files w' = files w ∧ can_read w' = can_read w ∧
  can_write w' = can_write w ∧ clock w' = clock w ∧ ticks w' = ticks w.

Section WpRules.
Context {A B : Type}.

Lemma wp_mono (m : M A) w (Q Q' : result A → world → Prop) :
  wp m w Q → (∀ r w', Q r w' → Q' r w') → wp m w Q'.
Proof. unfold wp. auto. Qed.

Lemma wp_ret (a : A) w (Q : result A → world → Prop) :
  Q (Ok a) w → wp (mret a) w Q.
Proof. done. Qed.

Lemma wp_raise e w (Q : result A → world → Prop) :
  Q (Raise e) w → wp (raise e) w Q.
Proof. done. Qed.

Lemma wp_bind (m : M A) (f : A → M B) w (Q : result B → world → Prop) :
  wp m w (λ r w', match r with
                  | Ok a => wp (f a) w' Q
                  | Raise e => Q (Raise e) w'
                  end) →
  wp (m ≫= f) w Q.
Proof.
  unfold wp, mbind, M_bind. destruct (m w) as [[a|e] w']; simpl; auto.
Qed.

Lemma wp_try_except (body : M A) (handler : exn → M A) w
    (Q : result A → world → Prop) :
  wp body w (λ r w', match r with
                     | Ok a => Q (Ok a) w'
                     | Raise e => wp (handler e) w' Q
                     end) →
  wp (try_except body handler) w Q.
Proof.
  unfold wp, try_except. destruct (body w) as [[a|e] w']; simpl; auto.
Qed.
End WpRules.

#[global] Instance keeps_preorder : PreOrder keeps.
Proof.
  split.
  - by intros w.
  - intros w1 w2 w3 (?&?&?&?&?&?) (?&?&?&?&?&?). unfold keeps. by intuition congruence.
Qed.

Lemma keeps_set_stdout w out : keeps w (set_stdout out w).
Proof. done. Qed.

Lemma keeps_set_stdin w lines : keeps w (set_stdin lines w).
Proof. done. Qed.

(** A method that only talks to the terminal. *)
Definition terminal_only {A} (m : M A) : Prop := ∀ w, keeps w (m w).2.

Lemma terminal_only_wp {A} (m : M A) w (Q : result A → world → Prop) :
  terminal_only m → (∀ r w', keeps w w' → Q r w') → wp m w Q.
Proof. unfold wp. auto. Qed.

Lemma terminal_only_ret {A} (a : A) : terminal_only (mret a).
Proof. by intros w. Qed.

Lemma terminal_only_raise {A} e : terminal_only (raise (A:=A) e).
Proof. by intros w. Qed.

Lemma terminal_only_bind {A B} (m : M A) (f : A → M B) :
  terminal_only m → (∀ a, terminal_only (f a)) → terminal_only (m ≫= f).
Proof.
  intros Hm Hf w. unfold mbind, M_bind.
  specialize (Hm w). destruct (m w) as [[a|e] w']; simpl in *; [|done].
  by etrans; [|apply Hf].
Qed.

Lemma terminal_only_try_except {A} (body : M A) handler :
  terminal_only body → (∀ e, terminal_only (handler e)) →
  terminal_only (try_except body handler).
Proof.
  intros Hm Hf w. unfold try_except.
  specialize (Hm w). destruct (body w) as [[a|e] w']; simpl in *; [done|].
  by etrans; [|apply Hf].
Qed.

Lemma terminal_only_try_except_ValueError {A} (body handler : M A) :
  terminal_only body → terminal_only handler →
  terminal_only (try_except_ValueError body handler).
Proof.
  intros Hm Hf. apply terminal_only_try_except; [done|].
  intros []; auto using terminal_only_raise.
Qed.

Lemma terminal_only_print m : terminal_only (print m).
Proof. by intros w. Qed.

Lemma terminal_only_print_all `{PyLib} ms : terminal_only (print_all ms).
Proof. by intros w. Qed.

Lemma terminal_only_input : terminal_only input.
Proof. intros w. unfold input. by destruct (stdin w). Qed.

Lemma terminal_only_get_students : terminal_only get_students.
Proof. by intros w. Qed.

Lemma input_until_lines_shape {A} (attempt : pystr → A + msg) lines out :
  ∃ r rest out', input_until_lines attempt lines out = (r, rest, out').
Proof. destruct (input_until_lines attempt lines out) as [[r rest] out']. eauto. Qed.

Lemma terminal_only_input_until {A} (attempt : pystr → A + msg) :
  terminal_only (input_until attempt).
Proof.
  intros w. unfold input_until.
  by destruct (input_until_lines attempt (stdin w) (stdout w)) as [[r rest] out'].
Qed.

Lemma terminal_only_parse_int `{PyLib} line : terminal_only (parse_int line).
Proof. unfold parse_int. destruct (py_int line); by intros w. Qed.

Lemma terminal_only_parse_float `{PyLib} line : terminal_only (parse_float line).
Proof. unfold parse_float. destruct (py_float line); by intros w. Qed.

Create HintDb terminal discriminated.
#[global] Hint Resolve terminal_only_ret terminal_only_raise terminal_only_print
  terminal_only_print_all terminal_only_input terminal_only_get_students
  terminal_only_input_until terminal_only_parse_int terminal_only_parse_float
  : terminal.

(** Splits a method into its statements, leaving what the hints do not close. *)
Ltac terminal_steps :=
  repeat first
    [ apply terminal_only_bind; [|intros]
    | apply terminal_only_try_except_ValueError
    | apply terminal_only_try_except; [|intros]
    | solve [eauto with terminal]
    | case_match
    | match goal with |- terminal_only (let '(_, _) := ?p in _) => destruct p end ].

Section TerminalMethods.
Context `{PyLib}.

Lemma terminal_only_view_all_students students_list :
  terminal_only (view_all_students students_list).
Proof. unfold view_all_students. terminal_steps. Qed.

Lemma terminal_only_show_matches matches none :
  terminal_only (show_matches matches none).
Proof.
  unfold show_matches.
  destruct matches; terminal_steps; apply terminal_only_view_all_students.
Qed.

Lemma terminal_only_search_student : terminal_only search_student.
Proof.
  unfold search_student.
  terminal_steps; apply terminal_only_show_matches.
Qed.

Lemma terminal_only_show_statistics : terminal_only show_statistics.
Proof. unfold show_statistics. terminal_steps. Qed.
End TerminalMethods.

#[global] Hint Resolve terminal_only_view_all_students terminal_only_show_matches
  terminal_only_search_student terminal_only_show_statistics : terminal.

(** * The order of floats

    [<], [<=] and [==] on binary64 numbers compare their places on the
    extended real line; NaN has no place and every comparison with it is
    false. *)

(** The place of a float in the order: binary64 numbers of one sign are
    ordered by exponent, then mantissa, and a mantissa has at most 53
    bits, so the pair is one integer. *)
Definition SFrank (x : spec_float) : option Z :=
  match x with
  | S754_nan => None
  | S754_zero _ => Some 0
  | S754_infinity s => Some (if s then - 2 ^ 64 else 2 ^ 64)
  | S754_finite s m e =>
      let k := (e + 1075) * 2 ^ 53 + Z.pos m in
      Some (if s then - k else k)
  end.

Definition rank (x : float) : option Z := SFrank (Prim2SF x).

Lemma digits2_pos_size m : digits2_pos m = Pos.size m.
Proof. induction m; simpl; congruence. Qed.

(** The mantissa of a binary64 number has at most 53 bits, and exactly 53
    above the smallest exponent. *)
Lemma finite_bounds x s m e :
  Prim2SF x = S754_finite s m e →
  Z.pos m < 2 ^ 53 ∧ -1074 ≤ e ≤ 971 ∧ (-1074 < e → 2 ^ 52 ≤ Z.pos m).
Proof.
  intros Hx. pose proof (Prim2SF_valid x) as Hv. rewrite Hx in Hv.
  unfold SpecFloat.valid_binary, bounded, canonical_mantissa, fexp in Hv.
  apply andb_true_iff in Hv as [Hc He]. apply Z.eqb_eq in Hc. apply Z.leb_le in He.
  rewrite digits2_pos_size in Hc.
  change (SpecFloat.emin prec emax) with (-1074) in Hc. change prec with 53 in Hc, He.
  change emax with 1024 in He.
  pose proof (Pos.size_gt m) as Hgt. pose proof (Pos.size_le m) as Hle.
  apply Pos2Z.pos_lt_pos in Hgt. apply Pos2Z.pos_le_pos in Hle.
  rewrite Pos2Z.inj_pow in Hgt, Hle. rewrite Pos2Z.inj_xO in Hle.
  set (d := Z.pos (Pos.size m)) in *.
  assert (0 < d) by (unfold d; lia).
  assert (d ≤ 53) by lia.
  split; [|split; [lia|]].
  - eapply Z.lt_le_trans; [done|]. apply Z.pow_le_mono_r; lia.
  - intros He'. assert (d = 53) as Hd by lia. rewrite Hd in Hle.
    change (2 ^ 53) with (2 * 2 ^ 52) in Hle. lia.
Qed.

Lemma compare_rank x y :
  SFcompare (Prim2SF x) (Prim2SF y) =
    match rank x, rank y with
    | Some a, Some b => Some (a ?= b)
    | _, _ => None
    end.
Proof.
  unfold rank.
  destruct (Prim2SF x) as [[]|[]| |s1 m1 e1] eqn:Hx,
           (Prim2SF y) as [[]|[]| |s2 m2 e2] eqn:Hy; try reflexivity;
    try (apply finite_bounds in Hx as (Hm1 & He1 & _));
    try (apply finite_bounds in Hy as (Hm2 & He2 & _));
    cbn [SFrank SFcompare]; f_equal; symmetry;
    change (2 ^ 53) with 9007199254740992 in *;
    change (2 ^ 64) with 18446744073709551616 in *.
  all: try (destruct s1); try (destruct s2);
    rewrite ?Pos.compare_cont_spec; cbn [Pos.switch_Eq];
    try (destruct (Z.compare_spec e1 e2));
    try (destruct (Pos.compare_spec m1 m2)); cbn [CompOpp];
    first [ apply Z.compare_eq_iff; lia
          | apply Z.compare_lt_iff; lia
          | apply Z.compare_gt_iff; lia ].
Qed.

Section RankOfComparison.
Variables x y : float.

Lemma ltb_rank :
  (x <? y)%float =
    match rank x, rank y with
    | Some a, Some b => a <? b
    | _, _ => false
    end.
Proof.
  rewrite ltb_spec. unfold SFltb. rewrite compare_rank.
  by destruct (rank x) as [a|], (rank y) as [b|].
Qed.

Lemma leb_rank :
  (x <=? y)%float =
    match rank x, rank y with
    | Some a, Some b => a <=? b
    | _, _ => false
    end.
Proof.
  rewrite leb_spec. unfold SFleb. rewrite compare_rank.
  by destruct (rank x) as [a|], (rank y) as [b|].
Qed.

Lemma eqb_rank :
  (x =? y)%float =
    match rank x, rank y with
    | Some a, Some b => a =? b
    | _, _ => false
    end.
Proof.
  rewrite FloatAxioms.eqb_spec. unfold SFeqb. rewrite compare_rank.
  destruct (rank x) as [a|], (rank y) as [b|]; try done.
  destruct (Z.eqb_spec a b) as [->|Hne]; [by rewrite Z.compare_refl|].
  destruct (Z.compare_spec a b); done.
Qed.
End RankOfComparison.

Lemma is_nan_rank x : is_nan x = match rank x with Some _ => false | None => true end.
Proof.
  unfold is_nan. rewrite eqb_rank. destruct (rank x) as [a|]; [|done].
  by rewrite Z.eqb_refl.
Qed.

(** Decides a comparison of floats from comparisons of floats: every
    comparison becomes one of ranks, the rank of a literal is computed. *)
Ltac is_literal x :=
  lazymatch x with
  | ?f ?a => fail
  | _ => tryif is_var x then fail else idtac
  end.

Ltac rank_of_literals :=
  repeat match goal with
  | |- context [rank ?x] =>
      is_literal x;
      let r := eval vm_compute in (rank x) in
      replace (rank x) with r in * by (vm_compute; reflexivity)
  | H : context [rank ?x] |- _ =>
      is_literal x;
      let r := eval vm_compute in (rank x) in
      replace (rank x) with r in * by (vm_compute; reflexivity)
  end.

Ltac float_order :=
  rewrite ?ltb_rank, ?leb_rank, ?eqb_rank, ?is_nan_rank in *;
  rank_of_literals;
  repeat match goal with
  | |- context [rank ?x] => destruct (rank x) as [?|]
  | H : context [rank ?x] |- _ => destruct (rank x) as [?|]
  end;
  rewrite ?andb_true_iff, ?andb_false_iff, ?orb_true_iff, ?orb_false_iff,
    ?negb_true_iff, ?negb_false_iff,
    ?Z.ltb_lt, ?Z.ltb_ge, ?Z.leb_le, ?Z.leb_gt, ?Z.eqb_eq, ?Z.eqb_neq in *;
  try done; try lia.

Lemma ltb_trans x y z : (x <? y)%float = true → (y <? z)%float = true → (x <? z)%float = true.
Proof. intros. float_order. Qed.

Lemma ltb_asym x y : (x <? y)%float = true → (y <? x)%float = false.
Proof. intros. float_order. Qed.

Lemma not_ltb_trans x y z :
  is_nan y = false → (y <? x)%float = false → (z <? y)%float = false → (z <? x)%float = false.
Proof. intros. float_order. Qed.

Lemma not_ltb_leb x y :
  is_nan x = false → is_nan y = false → (y <? x)%float = false → (x <=? y)%float = true.
Proof. intros. float_order. Qed.


Lemma range_eqb lo hi x y : (x =? y)%float = true →
  ((lo <=? x) && (x <=? hi))%float = true → ((lo <=? y) && (y <=? hi))%float = true.
Proof. intros. float_order. Qed.

(** * Sorting *)

(** [a] may stand before [b] in a list sorted by [lt] on [key]. *)
Definition in_order {A K} (lt : K → K → bool) (key : A → K) (a b : A) : Prop :=
  lt (key b) (key a) = false.

Section ListSortFacts.
Context {A K : Type} (lt : K → K → bool) (key : A → K).

Lemma insert_sorted_perm x l : insert_sorted lt key x l ≡ₚ x :: l.
Proof.
  induction l as [|y l IH]; simpl; [done|].
  destruct (lt (key y) (key x)); [|done].
  rewrite IH. apply Permutation_swap.
Qed.

Lemma stable_sort_perm l : stable_sort lt key l ≡ₚ l.
Proof.
  induction l as [|x l IH]; simpl; [done|].
  by rewrite insert_sorted_perm, IH.
Qed.

Lemma list_sort_perm reversed l : list_sort lt key reversed l ≡ₚ l.
Proof.
  destruct reversed; simpl; [|apply stable_sort_perm].
  by rewrite reverse_Permutation, stable_sort_perm, reverse_Permutation.
Qed.

Lemma list_sort_length reversed l : length (list_sort lt key reversed l) = length l.
Proof. by rewrite list_sort_perm. Qed.

(** Stability: the elements a property selects keep their order when no
    two of them are in strict order. *)
Section Stable.
Context (P : A → Prop) `{∀ x, Decision (P x)}.
Hypothesis tied : ∀ x y, P x → P y → lt (key y) (key x) = false.



End Stable.

(** Sortedness, when [lt] orders the keys of the list consistently. *)
Section Sorted.
Context (D : A → Prop).
Hypothesis asym : ∀ a b, D a → D b → lt (key a) (key b) = true → in_order lt key a b.
Hypothesis trans : ∀ a b c, D a → D b → D c →
  in_order lt key a b → in_order lt key b c → in_order lt key a c.

Lemma insert_sorted_sorted x l :
  D x → Forall D l → StronglySorted (in_order lt key) l →
  StronglySorted (in_order lt key) (insert_sorted lt key x l).
Proof.
  intros Hx Hl Hs. induction Hs as [|y l Hs IH Hy]; simpl.
  { repeat constructor. }
  apply Forall_cons in Hl as [HDy Hl].
  destruct (lt (key y) (key x)) eqn:Hlt.
  - constructor; [by apply IH|].
    rewrite insert_sorted_perm. constructor; [by apply asym|done].
  - constructor; [by constructor|].
    constructor; [done|].
    rewrite list.Forall_forall in Hy, Hl. apply list.Forall_forall. intros z Hz.
    apply (trans x y z); auto.
Qed.

Lemma stable_sort_sorted l :
  Forall D l → StronglySorted (in_order lt key) (stable_sort lt key l).
Proof.
  induction l as [|x l IH]; simpl; [constructor|].
  intros [Hx Hl]%Forall_cons. apply insert_sorted_sorted; auto.
  by rewrite stable_sort_perm.
Qed.
End Sorted.
End ListSortFacts.

Lemma StronglySorted_reverse {A} (R : relation A) l :
  StronglySorted R l → StronglySorted (flip R) (reverse l).
Proof.
  induction 1 as [|x l Hs IH Hx]; [constructor|].
  rewrite reverse_cons. apply StronglySorted_app_2.
  - intros a b Ha ->%list_elem_of_singleton. rewrite elem_of_reverse in Ha.
    unfold flip. by eapply list.Forall_forall in Hx.
  - exact IH.
  - repeat constructor.
Qed.

(** ** The order of strings *)

Lemma str_lt_asym a b : str_lt a b = true → str_lt b a = false.
Proof.
  revert b. induction a as [|x a IH]; intros [|y b]; simpl; try done.
  destruct (N.ltb_spec x y), (N.ltb_spec y x); try done; try lia. apply IH.
Qed.


Lemma str_not_lt_trans a b c :
  str_lt b a = false → str_lt c b = false → str_lt c a = false.
Proof.
  revert b c. induction a as [|x a IH]; intros [|y b] [|z c]; simpl; try done.
  destruct (N.ltb_spec y x), (N.ltb_spec x y), (N.ltb_spec z y), (N.ltb_spec y z),
    (N.ltb_spec z x), (N.ltb_spec x z); try done; try lia.
  apply IH.
Qed.

(** Strings neither of which is below the other are the same string. *)
Lemma str_lt_tied a b : str_lt a b = false → str_lt b a = false → a = b.
Proof.
  revert b. induction a as [|x a IH]; intros [|y b]; simpl; try done.
  destruct (N.ltb_spec x y), (N.ltb_spec y x); try done.
  intros. f_equal; [lia|]. by apply IH.
Qed.

(** * The value of a float *)

(** The number a float stands for, when it is finite. *)
Definition float_value (x : float) : option Q :=
  match Prim2SF x with
  | S754_zero _ => Some 0%Q
  | S754_finite s m e =>
      let n := if s then Z.neg m else Z.pos m in
      Some (if 0 <=? e then inject_Z (n * 2 ^ e) else n # 2 ^ Z.to_pos (- e))
  | _ => None
  end.

Lemma pow2_to_pos e : e < 0 → Z.pos (2 ^ Z.to_pos (- e)) = 2 ^ (- e).
Proof. intros. rewrite Pos2Z.inj_pow, Z2Pos.id by lia. done. Qed.

Lemma validate_cgpa_value c :
  validate_cgpa c = true ↔ ∃ q, float_value c = Some q ∧ (0 <= q)%Q ∧ (q <= 4)%Q.
Proof.
  unfold validate_cgpa. rewrite !leb_rank.
  assert (rank 0 = Some 0) as -> by (vm_compute; reflexivity).
  assert (rank 4 = Some (1025 * 2 ^ 53 + 2 ^ 52)) as -> by (vm_compute; reflexivity).
  unfold rank, float_value.
  destruct (Prim2SF c) as [s|s| |s m e] eqn:Hc; cbn [SFrank].
  - split; [|done]. intros _. by exists 0%Q.
  - split; [|by intros (?&?&?)]. rewrite andb_true_iff, !Z.leb_le.
    change (2 ^ 64) with (2048 * 2 ^ 53). change (2 ^ 53) with (2 * 2 ^ 52).
    destruct s; lia.
  - split; [done|by intros (?&?&?)].
  - destruct (finite_bounds c s m e Hc) as (Hm & He & Hn).
    rewrite andb_true_iff, !Z.leb_le.
    destruct s.
    + split.
      * change (2 ^ 53) with 9007199254740992 in *. lia.
      * intros (q & [= <-] & Hq & _). exfalso. revert Hq.
        destruct (Z.leb_spec 0 e); unfold Qle; cbn [Qnum Qden inject_Z].
        -- assert (0 < 2 ^ e) by (apply Z.pow_pos_nonneg; lia). nia.
        -- lia.
    + transitivity (e < -50 ∨ e = -50 ∧ Z.pos m ≤ 2 ^ 52).
      { change (2 ^ 53) with 9007199254740992 in *.
        change (2 ^ 52) with 4503599627370496 in *. lia. }
      destruct (Z.leb_spec 0 e) as [H0|H0].
      * split; [lia|]. intros (q & [= <-] & _ & Hq). exfalso. revert Hq.
        unfold Qle. cbn [Qnum Qden inject_Z].
        assert (2 ^ 0 ≤ 2 ^ e) by (apply Z.pow_le_mono_r; lia).
        assert (2 ^ 52 ≤ Z.pos m) by (apply Hn; lia).
        change (2 ^ 0) with 1 in *. change (2 ^ 52) with 4503599627370496 in *. nia.
      * assert (Hv : ∀ q, Some (Z.pos m # 2 ^ Z.to_pos (- e)) = Some q →
                   ((0 <= q)%Q ∧ (q <= 4)%Q ↔ Z.pos m ≤ 2 ^ (2 - e))).
        { intros q [= <-]. unfold Qle. cbn [Qnum Qden]. rewrite pow2_to_pos by done.
          replace (2 - e) with (2 + - e) by lia. rewrite Z.pow_add_r by lia.
          change (2 ^ 2) with 4. lia. }
        split.
        -- intros Hle. eexists. split; [done|]. apply Hv; [done|].
           destruct Hle as [Hlt|[-> Hle]]; [|done].
           assert (2 ^ 53 ≤ 2 ^ (2 - e)) by (apply Z.pow_le_mono_r; lia). lia.
        -- intros (q & Hq & Hr). apply (Hv q Hq) in Hr.
           destruct (Z.lt_trichotomy e (-50)) as [?|[->|?]]; [lia|by right|].
           exfalso. assert (2 ^ 52 ≤ Z.pos m) by (apply Hn; lia).
           assert (2 ^ (2 - e) ≤ 2 ^ 51) by (apply Z.pow_le_mono_r; lia).
           change (2 ^ 52) with (2 * 2 ^ 51) in *. lia.
Qed.

(** * The validation rules *)

(** C3. [validate_age a] holds exactly when 5 <= a <= 120, and
    [validate_cgpa c] exactly when the float [c] compares 0.0 <= c <= 4.0,
    which is to say when it is a finite number whose exact value lies
    between 0 and 4 (NaN and the infinities fail). The bounds 5, 120, 0.0
    and 4.0 pass; 4, 121, -0.01 and 4.01 fail. *)
Theorem validation_bounds :
  (∀ a, validate_age a = true ↔ 5 ≤ a ≤ 120) ∧
  (∀ c, validate_cgpa c = true ↔ (0 <=? c)%float = true ∧ (c <=? 4)%float = true) ∧
  (∀ c, validate_cgpa c = true ↔
        ∃ q, float_value c = Some q ∧ (0 <= q)%Q ∧ (q <= 4)%Q) ∧
  validate_age 5 = true ∧ validate_age 120 = true ∧
  validate_age 4 = false ∧ validate_age 121 = false ∧
  validate_cgpa 0 = true ∧ validate_cgpa 4 = true ∧
  validate_cgpa (-0.01) = false ∧ validate_cgpa 4.01 = false.
Proof.
  split; [|split; [|split]].
  - intros a. unfold validate_age. rewrite andb_true_iff, !Z.leb_le. done.
  - intros c. unfold validate_cgpa. by rewrite andb_true_iff.
  - apply validate_cgpa_value.
  - repeat split; vm_compute; reflexivity.
Qed.

(** * The distributions of the statistics *)

(** X4. A CGPA of exactly 3.5 is counted in the last group (printed as
    ">3.5"), not in "3.0-3.5"; a CGPA strictly between 2.9 and 3.0 is
    counted in "2.0-2.9". *)
Theorem cgpa_group_boundaries (c : float) :
  (2.9 <? c)%float = true → (c <? 3)%float = true →
  cgpa_group c = "2.0-2.9"%string ∧
  cgpa_group 3.5 = ">3.5"%string ∧
  cgpa_groups [3.5%float; c] =
    [("<2.0", 0); ("2.0-2.9", 1); ("3.0-3.5", 0); (">3.5", 1)]%string%nat.
Proof.
  intros Hlo Hhi.
  assert (Hc : cgpa_group c = "2.0-2.9"%string).
  { unfold cgpa_group.
    assert ((c <? 2)%float = false) as -> by float_order.
    assert ((2 <=? c)%float = true) as -> by float_order.
    by rewrite Hhi. }
  split; [done|]. split; [by vm_compute|].
  unfold cgpa_groups. cbn [foldl]. rewrite Hc.
  replace (cgpa_group 3.5) with ">3.5"%string by (vm_compute; reflexivity).
  reflexivity.
Qed.

Lemma cgpa_group_boundaries_witness :
  cgpa_group 2.95 = "2.0-2.9"%string ∧
  cgpa_group 3.5 = ">3.5"%string ∧
  cgpa_groups [3.5%float; 2.95%float] =
    [("<2.0", 0); ("2.0-2.9", 1); ("3.0-3.5", 0); (">3.5", 1)]%string%nat.
Proof. apply (cgpa_group_boundaries 2.95); vm_compute; reflexivity. Defined.


(** The sum of the counters of a distribution. *)
Definition total (g : groups) : nat := sum_list (snd <$> g).









(** * Loading and saving *)

Section LoadSave.
Context `{PyLib}.

(** What [load_students] does, case by case. *)
Lemma load_students_cases (w : world) :
  ∃ l, (load_students w).1 = Ok l ∧
       keeps w (load_students w).2 ∧
       stdin (load_students w).2 = stdin w ∧
       match files w !! DATA_FILE with
       | None => l = [] ∧ stdout (load_students w).2 = stdout w
       | Some text =>
           if can_read w DATA_FILE then
             match json_load text with
             | Some parsed => l = parsed ∧ stdout (load_students w).2 = stdout w
             | None => l = [] ∧
                 stdout (load_students w).2 = stdout w ++ [ErrorLoading ValueError]
             end
           else l = [] ∧
                stdout (load_students w).2 = stdout w ++ [ErrorLoading OSError]
       end.
Proof.
  unfold load_students, try_except, mbind, M_bind, mret, M_ret, raise, print,
    path_exists, read_file.
  cbn [fst snd]. destruct (files w !! DATA_FILE) as [text|] eqn:Hf.
  - rewrite bool_decide_eq_true_2 by eauto. rewrite Hf.
    destruct (can_read w DATA_FILE).
    + destruct (json_load text) as [parsed|]; eexists; cbn; repeat split.
    + eexists; cbn; repeat split.
  - rewrite bool_decide_eq_false_2 by (by intros [? ?]). eexists; cbn; repeat split.
Qed.

(** X1. [load_students] never raises. Without a data file it returns the
    empty list and prints nothing; when the file cannot be read or its
    text cannot be parsed it prints the error and returns the empty list;
    otherwise it returns what the text parses to. It changes nothing but
    the terminal. *)
Theorem load_students_never_raises (w : world) :
  ∃ l, (load_students w).1 = Ok l ∧
       keeps w (load_students w).2 ∧
       stdin (load_students w).2 = stdin w ∧
       match files w !! DATA_FILE with
       | None => l = [] ∧ stdout (load_students w).2 = stdout w
       | Some text =>
           if can_read w DATA_FILE then
             match json_load text with
             | Some parsed => l = parsed ∧ stdout (load_students w).2 = stdout w
             | None => l = [] ∧
                 stdout (load_students w).2 = stdout w ++ [ErrorLoading ValueError]
             end
           else l = [] ∧
                stdout (load_students w).2 = stdout w ++ [ErrorLoading OSError]
       end.
Proof.
  unfold load_students, try_except, mbind, M_bind, mret, M_ret, raise, print,
    path_exists, read_file.
  cbn [fst snd]. destruct (files w !! DATA_FILE) as [text|] eqn:Hf.
  - rewrite bool_decide_eq_true_2 by eauto. rewrite Hf.
    destruct (can_read w DATA_FILE).
    + destruct (json_load text) as [parsed|]; eexists; cbn; repeat split.
    + eexists; cbn; repeat split.
  - rewrite bool_decide_eq_false_2 by (by intros [? ?]). eexists; cbn; repeat split.
Qed.

Lemma backup_file_not_data_file timestamp : backup_file timestamp ≠ DATA_FILE.
Proof. unfold backup_file. by vm_compute. Qed.

Lemma backup_file_not_csv timestamp : backup_file timestamp ≠ CSV_EXPORT_FILE.
Proof. unfold backup_file. by vm_compute. Qed.

(** What [save_students] does, case by case. It never raises and never
    touches the collection or the input. *)
Lemma save_students_effect (w : world) :
  let w' := (save_students w).2 in
  let text := json_dump (students w) in
  let backup := backup_file (clock w (ticks w)) in
  (save_students w).1 = Ok tt ∧
  students w' = students w ∧ stdin w' = stdin w ∧
  can_read w' = can_read w ∧ can_write w' = can_write w ∧
  (if can_write w DATA_FILE then
     if can_write w backup then
       files w' = <[backup := text]> (<[DATA_FILE := text]> (files w)) ∧
       stdout w' = stdout w
     else
       files w' = <[DATA_FILE := text]> (files w) ∧
       stdout w' = stdout w ++ [ErrorSaving OSError]
   else files w' = files w ∧ stdout w' = stdout w ++ [ErrorSaving OSError]).
Proof.
  unfold save_students, try_except, mbind, M_bind, mret, M_ret, raise, print,
    get_students, write_file, now_strftime.
  cbn [fst snd]. destruct (can_write w DATA_FILE) eqn:Hd; [|by cbn].
  cbn [fst snd can_write set_ticks set_files clock ticks files].
  destruct (can_write w (backup_file (clock w (ticks w)))); by cbn.
Qed.

(** X2. When the data file can be written and read, and the json library
    reads the text it wrote for this collection back as the collection,
    [load_students] after [save_students] returns the collection as it
    was: the backup is written to another path, and a failure to write the
    backup does not undo the data file. *)
Theorem save_then_load (w : world) :
  can_write w DATA_FILE = true →
  can_read w DATA_FILE = true →
  json_load (json_dump (students w)) = Some (students w) →
  (load_students (save_students w).2).1 = Ok (students w) ∧
  files (save_students w).2 !! DATA_FILE = Some (json_dump (students w)) ∧
  students (save_students w).2 = students w.
Proof.
  intros Hw Hr Hjson.
  destruct (save_students_effect w) as (_ & Hs & _ & Hcr & _ & Hf).
  rewrite Hw in Hf.
  assert (Hdata : files (save_students w).2 !! DATA_FILE = Some (json_dump (students w))).
  { destruct (can_write w (backup_file (clock w (ticks w)))); destruct Hf as [-> _].
    - rewrite lookup_insert_ne by apply backup_file_not_data_file.
      apply lookup_insert_eq.
    - apply lookup_insert_eq. }
  split; [|done].
  destruct (load_students_cases (save_students w).2) as (l & Hl & _ & _ & Hcase).
  rewrite Hdata, Hcr, Hr, Hjson in Hcase. destruct Hcase as [-> _]. done.
Qed.
End LoadSave.

Lemma save_then_load_witness :
  (load_students (save_students (set_students [ann; bob] (world0 []))).2).1
  = Ok [ann; bob].
Proof.
  apply (@save_then_load ascii_py (set_students [ann; bob] (world0 [])));
    vm_compute; reflexivity.
Defined.

(** * Exporting *)

Section ExportCsv.
Context `{PyLib}.

End ExportCsv.

(** * Sorting the collection *)

Section SortBy.
Context `{PyLib}.

(** [s] has the same key as [x] under the criterion [k]. *)
Definition sort_tied (k : sort_key) (x s : student) : Prop :=
  match k with
  | ByRoll => roll_number s = roll_number x
  | ByName => py_lower (name s) = py_lower (name x)
  | ByAge => age s = age x
  | ByCgpa => (cgpa s =? cgpa x)%float = true
  end.

#[global] Instance sort_tied_dec k x s : Decision (sort_tied k x s).
Proof. destruct k; simpl; apply _. Defined.

(** [a] may stand before [b] in a collection sorted by [k]: ascending
    roll number, name (lower case) and age, descending CGPA. *)
Definition sort_order (k : sort_key) (a b : student) : Prop :=
  match k with
  | ByRoll => roll_number a ≤ roll_number b
  | ByName => str_lt (py_lower (name b)) (py_lower (name a)) = false
  | ByAge => age a ≤ age b
  | ByCgpa => (cgpa b <=? cgpa a)%float = true
  end.

Lemma StronglySorted_weaken {A} (R R' : relation A) (D : A → Prop) l :
  (∀ a b, D a → D b → R a b → R' a b) →
  Forall D l → StronglySorted R l → StronglySorted R' l.
Proof.
  intros HR HD Hs. induction Hs as [|x l Hs IH Hx]; [constructor|].
  apply Forall_cons in HD as [HDx HD]. constructor; [by apply IH|].
  rewrite list.Forall_forall in Hx, HD. apply list.Forall_forall. intros y Hy.
  apply HR; auto.
Qed.

(** Sorting keeps the records: the sorted collection is a rearrangement
    of the collection, whatever the criterion. *)
Lemma sort_by_perm k l : sort_by k l ≡ₚ l.
Proof. destruct k; apply list_sort_perm. Qed.


(** X7. The sorted collection is in order: ascending roll number, lower-case
    name or age, descending CGPA; so its first record has the least roll
    number, name or age, or the greatest CGPA of the collection. For the
    CGPA no record may hold a NaN, which compares false with everything. *)
Theorem sort_by_sorted (k : sort_key) (l : list student) :
  (k = ByCgpa → Forall (λ s, is_nan (cgpa s) = false) l) →
  StronglySorted (sort_order k) (sort_by k l) ∧
  ∀ first rest, sort_by k l = first :: rest →
    ∀ s, s ∈ l → s = first ∨ sort_order k first s.
Proof.
  intros Hnan.
  assert (StronglySorted (sort_order k) (sort_by k l)) as Hs.
  { destruct k; simpl.
    - eapply (StronglySorted_weaken _ _ (λ _, True)); [| |
        apply (stable_sort_sorted Z.ltb roll_number (λ _, True))].
      + unfold in_order. intros a b _ _ ?%Z.ltb_ge. simpl. lia.
      + by apply list.Forall_forall.
      + unfold in_order. intros a b _ _ ?%Z.ltb_lt. apply Z.ltb_ge. lia.
      + unfold in_order. intros a b c _ _ _ ?%Z.ltb_ge ?%Z.ltb_ge. apply Z.ltb_ge. lia.
      + by apply list.Forall_forall.
    - apply (stable_sort_sorted str_lt _ (λ _, True)).
      + unfold in_order. intros a b _ _. apply str_lt_asym.
      + unfold in_order. intros a b c _ _ _. apply str_not_lt_trans.
      + by apply list.Forall_forall.
    - eapply (StronglySorted_weaken _ _ (λ _, True)); [| |
        apply (stable_sort_sorted Z.ltb age (λ _, True))].
      + unfold in_order. intros a b _ _ ?%Z.ltb_ge. simpl. lia.
      + by apply list.Forall_forall.
      + unfold in_order. intros a b _ _ ?%Z.ltb_lt. apply Z.ltb_ge. lia.
      + unfold in_order. intros a b c _ _ _ ?%Z.ltb_ge ?%Z.ltb_ge. apply Z.ltb_ge. lia.
      + by apply list.Forall_forall.
    - specialize (Hnan eq_refl).
      set (D := λ s : student, is_nan (cgpa s) = false) in *.
      assert (Forall D (reverse l)) as Hrev.
      { rewrite list.Forall_forall in Hnan. apply list.Forall_forall.
        intros s Hs. rewrite elem_of_reverse in Hs. by apply Hnan. }
      eapply (StronglySorted_weaken _ _ D); [| |
        apply StronglySorted_reverse,
          (stable_sort_sorted PrimFloat.ltb cgpa D)]; try exact Hrev.
      + unfold flip, in_order. intros a b Ha Hb Hab.
        apply not_ltb_leb; [exact Hb|exact Ha|exact Hab].
      + rewrite list.Forall_forall in Hrev. apply list.Forall_forall.
        intros s Hs. rewrite elem_of_reverse, stable_sort_perm in Hs. by apply Hrev.
      + unfold in_order. intros a b _ _. apply ltb_asym.
      + unfold in_order. intros a b c _ Hb _. by apply not_ltb_trans. }
  split; [done|].
  intros first rest Heq s Hin. rewrite Heq in Hs.
  apply StronglySorted_inv in Hs as [_ Hfirst].
  rewrite <- (sort_by_perm k), Heq in Hin.
  apply elem_of_cons in Hin as [->|Hin]; [by left|right].
  rewrite list.Forall_forall in Hfirst. by apply Hfirst.
Qed.
End SortBy.

Lemma sort_by_sorted_witness :
  sort_by ByCgpa [bob; ann; cat] = [ann; cat; bob] ∧
  StronglySorted (sort_order ByCgpa) (sort_by ByCgpa [bob; ann; cat]).
Proof.
  split; [vm_compute; reflexivity|].
  apply (@sort_by_sorted ascii_py ByCgpa [bob; ann; cat]).
  intros _. repeat constructor.
Defined.

(** * What a method leaves of the input *)

(** A relation between the state before and after that every statement
    of a method respects is respected by the method. *)
Section Respects.
Context (R : relation world) `{!PreOrder R}.

Definition respects {A} (m : M A) : Prop := ∀ w, R w (m w).2.

Lemma respects_ret {A} (a : A) : respects (mret a).
Proof. by intros w. Qed.

Lemma respects_raise {A} e : respects (raise (A:=A) e).
Proof. by intros w. Qed.

Lemma respects_bind {A B} (m : M A) (f : A → M B) :
  respects m → (∀ a, respects (f a)) → respects (m ≫= f).
Proof.
  intros Hm Hf w. unfold mbind, M_bind.
  specialize (Hm w). destruct (m w) as [[a|e] w']; simpl in *; [|done].
  by etrans; [|apply Hf].
Qed.

Lemma respects_try_except {A} (body : M A) handler :
  respects body → (∀ e, respects (handler e)) → respects (try_except body handler).
Proof.
  intros Hm Hf w. unfold try_except.
  specialize (Hm w). destruct (body w) as [[a|e] w']; simpl in *; [done|].
  by etrans; [|apply Hf].
Qed.

Lemma respects_try_except_ValueError {A} (body handler : M A) :
  respects body → respects handler → respects (try_except_ValueError body handler).
Proof.
  intros Hm Hf. apply respects_try_except; [done|].
  intros []; auto using respects_raise.
Qed.
End Respects.

(** The input left in [w'] is an end of the input of [w]: lines were
    read, none was put back. *)
Definition consumed (w w' : world) : Prop := stdin w' `suffix_of` stdin w.

#[global] Instance consumed_preorder : PreOrder consumed.
Proof.
  split.
  - intros w. by unfold consumed.
  - intros w1 w2 w3. unfold consumed. intros. by etrans.
Qed.

Lemma keeps_stdin_consumed {A} (m : M A) :
  (∀ w, stdin (m w).2 = stdin w) → respects consumed m.
Proof. intros Hm w. unfold consumed. by rewrite Hm. Qed.

Lemma input_until_lines_suffix {A} (attempt : pystr → A + msg) lines out :
  (input_until_lines attempt lines out).1.2 `suffix_of` lines.
Proof.
  revert out. induction lines as [|line rest IH]; intros out; simpl.
  - done.
  - destruct (attempt line); simpl.
    + by apply suffix_cons_r.
    + by apply suffix_cons_r.
Qed.

Section Consumed.
Context `{PyLib}.

Lemma consumed_print m : respects consumed (print m).
Proof. by apply keeps_stdin_consumed. Qed.

Lemma consumed_print_all ms : respects consumed (print_all ms).
Proof. by apply keeps_stdin_consumed. Qed.

Lemma consumed_get_students : respects consumed get_students.
Proof. by apply keeps_stdin_consumed. Qed.

Lemma consumed_put_students l : respects consumed (put_students l).
Proof. by apply keeps_stdin_consumed. Qed.

Lemma consumed_input : respects consumed input.
Proof.
  intros w. unfold consumed, input.
  destruct (stdin w) as [|line rest] eqn:Hin; simpl; rewrite ?Hin; [done|].
  by apply suffix_cons_r.
Qed.

Lemma consumed_input_until {A} (attempt : pystr → A + msg) :
  respects consumed (input_until attempt).
Proof.
  intros w. unfold consumed, input_until.
  pose proof (input_until_lines_suffix attempt (stdin w) (stdout w)) as Hs.
  by destruct (input_until_lines attempt (stdin w) (stdout w)) as [[r rest] out'].
Qed.

Lemma consumed_parse_int line : respects consumed (parse_int line).
Proof. unfold parse_int. destruct (py_int line); by intros w. Qed.

Lemma consumed_parse_float line : respects consumed (parse_float line).
Proof. unfold parse_float. destruct (py_float line); by intros w. Qed.

Lemma consumed_write_file path text : respects consumed (write_file path text).
Proof.
  apply keeps_stdin_consumed. intros w. unfold write_file.
  by destruct (can_write w path).
Qed.

Lemma consumed_save_students : respects consumed save_students.
Proof.
  apply keeps_stdin_consumed. intros w.
  by destruct (save_students_effect w) as (_ & _ & ? & _).
Qed.
End Consumed.

Create HintDb consumed discriminated.
#[global] Hint Resolve respects_ret respects_raise consumed_print consumed_print_all
  consumed_get_students consumed_put_students consumed_input consumed_input_until
  consumed_parse_int consumed_parse_float consumed_write_file consumed_save_students
  : consumed.

Ltac consumed_steps :=
  repeat first
    [ solve [eauto with consumed typeclass_instances]
    | apply (respects_bind consumed); [|intros]
    | apply (respects_try_except_ValueError consumed)
    | apply (respects_try_except consumed); [|intros]
    | case_match ].

Section ConsumedMethods.
Context `{PyLib}.

Lemma consumed_add_student : respects consumed add_student.
Proof. unfold add_student. consumed_steps. Qed.

Lemma consumed_view_all_students students_list :
  respects consumed (view_all_students students_list).
Proof. unfold view_all_students. consumed_steps. Qed.
#[local] Hint Resolve consumed_view_all_students : consumed.

Lemma consumed_show_matches matches none : respects consumed (show_matches matches none).
Proof. unfold show_matches. destruct matches; consumed_steps. Qed.
#[local] Hint Resolve consumed_show_matches : consumed.

Lemma consumed_search_student : respects consumed search_student.
Proof. unfold search_student. consumed_steps. Qed.
#[local] Hint Resolve consumed_search_student : consumed.

Lemma consumed_update_student : respects consumed update_student.
Proof. unfold update_student. consumed_steps. Qed.

Lemma consumed_delete_student : respects consumed delete_student.
Proof. unfold delete_student. consumed_steps. Qed.

Lemma consumed_sort_students : respects consumed sort_students.
Proof. unfold sort_students. consumed_steps. Qed.

Lemma consumed_export_to_csv : respects consumed export_to_csv.
Proof. unfold export_to_csv. consumed_steps. Qed.

Lemma consumed_show_statistics : respects consumed show_statistics.
Proof. unfold show_statistics. consumed_steps. Qed.

#[local] Hint Resolve consumed_add_student consumed_update_student
  consumed_delete_student consumed_sort_students consumed_export_to_csv
  consumed_show_statistics : consumed.

End ConsumedMethods.

(** * The menu loop *)

Section Run.
Context `{PyLib}.



End Run.


(** * What a method returns *)

(** [yields l0 P m]: started on the collection [l0], the method [m]
    returns a value that satisfies [P] whenever it returns one. *)
Section Yields.
Context (l0 : list student) {A : Type} (P : A → Prop).

Definition yields (m : M A) : Prop :=
  ∀ w, students w = l0 → match (m w).1 with Ok a => P a | Raise _ => True end.

Lemma yields_ret a : P a → yields (mret a).
Proof. by intros Ha w _. Qed.

Lemma yields_raise e : yields (raise e).
Proof. by intros w _. Qed.

Lemma yields_bind {B} (m : M B) (f : B → M A) :
  terminal_only m → (∀ b, yields (f b)) → yields (m ≫= f).
Proof.
  intros Hm Hf w Hw. unfold mbind, M_bind.
  destruct (Hm w) as [Hs _]. destruct (m w) as [[b|e] w']; simpl in *; [|done].
  apply Hf. congruence.
Qed.

Lemma yields_get (f : list student → M A) :
  yields (f l0) → yields (get_students ≫= f).
Proof. intros Hf w Hw. unfold mbind, M_bind, get_students. rewrite Hw. by apply Hf. Qed.

Lemma yields_try_except (body : M A) handler :
  terminal_only body → yields body → (∀ e, yields (handler e)) →
  yields (try_except body handler).
Proof.
  intros Ht Hb Hh w Hw. unfold try_except.
  specialize (Hb w Hw). destruct (Ht w) as [Hs _].
  destruct (body w) as [[a|e] w']; simpl in *; [done|].
  apply Hh. congruence.
Qed.

Lemma yields_try_except_ValueError (body handler : M A) :
  terminal_only body → yields body → yields handler →
  yields (try_except_ValueError body handler).
Proof.
  intros Ht Hb Hh. apply yields_try_except; [done..|].
  intros []; auto using yields_raise.
Qed.
End Yields.

Lemma input_until_lines_accepts {A} (attempt : pystr → A + msg) lines out :
  match (input_until_lines attempt lines out).1.1 with
  | Ok a => ∃ line, line ∈ lines ∧ attempt line = inl a
  | Raise _ => True
  end.
Proof.
  revert out. induction lines as [|line rest IH]; intros out; simpl; [done|].
  destruct (attempt line) as [a|m] eqn:Ha; simpl.
  - exists line. split; [by left|done].
  - specialize (IH (out ++ [m])).
    destruct (input_until_lines attempt rest (out ++ [m])) as [[[a|e] rest'] out'];
      simpl in *; [|done].
    destruct IH as (line' & ? & ?). exists line'. split; [by right|done].
Qed.

(** A retry loop returns only a value that its test accepted. *)
Lemma yields_input_until l0 {A} (attempt : pystr → A + msg) :
  yields l0 (λ a, ∃ line, attempt line = inl a) (input_until attempt).
Proof.
  intros w _. unfold input_until.
  pose proof (input_until_lines_accepts attempt (stdin w) (stdout w)) as Ha.
  destruct (input_until_lines attempt (stdin w) (stdout w)) as [[[a|e] rest] out'];
    simpl in *; [|done].
  destruct Ha as (line & _ & ?). eauto.
Qed.

Section Search.
Context `{PyLib}.

(** A record at a slot of the collection [l]; [None] stands for no record. *)
Definition slot_of (l : list student) (found : option (nat * student)) : Prop :=
  match found with
  | Some (i, s) => l !! i = Some s
  | None => True
  end.

Lemma slots_lookup l m : m ∈ slots l → l !! m.1 = Some m.2.
Proof.
  unfold slots. intros (i & s & -> & Hs)%elem_of_lookup_imap. done.
Qed.

Lemma yields_show_matches l matches none :
  (∀ m, m ∈ matches → m ∈ slots l) →
  yields l (slot_of l) (show_matches matches none).
Proof.
  intros Hm. unfold show_matches. destruct matches as [|m matches].
  - apply yields_bind; [auto with terminal|]. intros _. by apply yields_ret.
  - apply yields_bind; [auto with terminal|]. intros _. apply yields_ret.
    destruct matches; [|done]. destruct m as [i s].
    apply (slots_lookup l (i, s)), Hm. by left.
Qed.

(** The record [search_student] returns is a record of the collection,
    and it comes with the slot it stands at. *)
Lemma search_student_slot l : yields l (slot_of l) search_student.
Proof.
  unfold search_student.
  apply yields_bind; [auto with terminal|]. intros _.
  apply yields_get. destruct l as [|s0 l']; [|set (l := s0 :: l')].
  { apply yields_bind; [auto with terminal|]. intros _. by apply yields_ret. }
  apply yields_bind; [auto with terminal|]. intros _.
  apply yields_try_except_ValueError.
  { terminal_steps. }
  2:{ apply yields_bind; [auto with terminal|]. intros _. by apply yields_ret. }
  apply yields_bind; [auto with terminal|]. intros line.
  apply yields_bind; [auto with terminal|]. intros choice.
  repeat case_match.
  - apply yields_bind; [auto with terminal|]. intros line1.
    apply yields_bind; [auto with terminal|]. intros roll.
    destruct (list_find _ l) as [[i s]|] eqn:Hfind.
    + apply yields_ret. by apply list_find_Some in Hfind as (? & _).
    + apply yields_bind; [auto with terminal|]. intros _. by apply yields_ret.
  - apply yields_bind; [auto with terminal|]. intros line1.
    apply yields_show_matches. by intros m [_ ?]%list_elem_of_filter.
  - apply yields_bind; [auto with terminal|]. intros line1.
    apply yields_bind; [auto with terminal|]. intros lo.
    apply yields_bind; [auto with terminal|]. intros line2.
    apply yields_bind; [auto with terminal|]. intros hi.
    apply yields_show_matches. by intros m [_ ?]%list_elem_of_filter.
  - apply yields_bind; [auto with terminal|]. intros line1.
    apply yields_bind; [auto with terminal|]. intros lo.
    apply yields_bind; [auto with terminal|]. intros line2.
    apply yields_bind; [auto with terminal|]. intros hi.
    apply yields_show_matches. by intros m [_ ?]%list_elem_of_filter.
  - by apply yields_ret.
  - apply yields_bind; [auto with terminal|]. intros _. by apply yields_ret.
Qed.
End Search.

(** * What a method does to the collection and to the files *)

(** [outcome w0 Q m]: started on a state that differs from [w0] on the
    terminal only, the method [m] ends in a state that satisfies [Q]. *)
Section Outcome.
Context (w0 : world) (Q : world → Prop).
Hypothesis Q_start : ∀ w, keeps w0 w → Q w.
Hypothesis Q_terminal : ∀ w w', Q w → keeps w w' → Q w'.

Definition outcome {A} (m : M A) : Prop := ∀ w, keeps w0 w → Q (m w).2.

Lemma outcome_terminal {A} (m : M A) : terminal_only m → outcome m.
Proof. intros Hm w Hw. apply Q_start. etrans; [done|apply Hm]. Qed.

Lemma outcome_bind_yields {A B} (P : A → Prop) (m : M A) (f : A → M B) :
  terminal_only m → yields (students w0) P m →
  (∀ a, P a → outcome (f a)) → outcome (m ≫= f).
Proof.
  intros Hm Hy Hf w Hw. unfold mbind, M_bind.
  specialize (Hm w). specialize (Hy w (proj1 Hw)).
  destruct (m w) as [[a|e] w1]; simpl in *.
  - apply Hf; [done|]. by etrans.
  - apply Q_start. by etrans.
Qed.

Lemma outcome_bind {A B} (m : M A) (f : A → M B) :
  terminal_only m → (∀ a, outcome (f a)) → outcome (m ≫= f).
Proof.
  intros Hm Hf. apply (outcome_bind_yields (λ _, True)); [done| |auto].
  intros w _. by destruct (m w).1.
Qed.

Lemma outcome_get {B} (f : list student → M B) :
  outcome (f (students w0)) → outcome (get_students ≫= f).
Proof.
  intros Hf w Hw. unfold mbind, M_bind, get_students.
  destruct Hw as [Hs ?]. rewrite Hs. apply Hf. by split.
Qed.

Lemma outcome_try_except {A} (body : M A) handler :
  outcome body → (∀ e, terminal_only (handler e)) →
  outcome (try_except body handler).
Proof.
  intros Hb Hh w Hw. unfold try_except. specialize (Hb w Hw).
  destruct (body w) as [[a|e] w1]; simpl in *; [done|].
  eapply Q_terminal; [done|apply Hh].
Qed.

Lemma outcome_try_except_ValueError {A} (body handler : M A) :
  outcome body → terminal_only handler →
  outcome (try_except_ValueError body handler).
Proof.
  intros Hb Hh. apply outcome_try_except; [done|].
  intros []; auto using terminal_only_raise.
Qed.
End Outcome.

Section Saving.
Context `{PyLib}.

(** The data file after a change of the collection: it holds the
    collection when it can be written, and no file changed when it
    cannot. *)
Definition saved (w0 w' : world) : Prop :=
  if can_write w0 DATA_FILE
  then files w' !! DATA_FILE = Some (json_dump (students w'))
  else files w' = files w0.

Lemma saved_terminal w0 w w' : saved w0 w → keeps w w' → saved w0 w'.
Proof. unfold saved. intros Hs (-> & -> & _). done. Qed.

Lemma save_students_saved w0 w :
  files w = files w0 → can_write w = can_write w0 →
  (save_students w).1 = Ok tt ∧ students (save_students w).2 = students w ∧
  saved w0 (save_students w).2.
Proof.
  intros Hf Hc.
  destruct (save_students_effect w) as (Hr & Hs & _ & _ & _ & Hcase).
  split; [done|]. split; [done|]. unfold saved. rewrite Hs, <- Hc, <- Hf.
  destruct (can_write w DATA_FILE); [|by destruct Hcase].
  destruct (can_write w (backup_file (clock w (ticks w)))); destruct Hcase as [-> _].
  - rewrite lookup_insert_ne by apply backup_file_not_data_file.
    apply lookup_insert_eq.
  - apply lookup_insert_eq.
Qed.

(** The collection is replaced and saved; terminal work follows. *)
Lemma outcome_put_save w0 (Q : world → Prop) {A} l' (after : M A) :
  terminal_only after →
  (∀ w', students w' = l' → saved w0 w' → Q w') →
  outcome w0 Q (put_students l';; save_students;; after).
Proof.
  intros Ha HQ w (Hs & Hf & _ & Hc & _). unfold mbind, M_bind, put_students.
  destruct (save_students_saved w0 (set_students l' w)) as (Hr & Hs1 & Hsaved);
    [done..|].
  specialize (Ha (save_students (set_students l' w)).2).
  destruct (save_students (set_students l' w)) as [r w1]; simpl in *. subst r.
  apply HQ.
  - destruct Ha as [-> _]. done.
  - by eapply saved_terminal.
Qed.

(** The same with a message printed before the save. *)
Lemma outcome_put_print_save w0 (Q : world → Prop) {A} l' m (after : M A) :
  terminal_only after →
  (∀ w', students w' = l' → saved w0 w' → Q w') →
  outcome w0 Q (put_students l';; print m;; save_students;; after).
Proof.
  intros Ha HQ w (Hs & Hf & _ & Hc & _). unfold mbind, M_bind, put_students, print.
  set (w1 := set_stdout _ _).
  destruct (save_students_saved w0 w1) as (Hr & Hs1 & Hsaved); [done..|].
  specialize (Ha (save_students w1).2).
  destruct (save_students w1) as [r w2]; simpl in *. subst r.
  apply HQ.
  - destruct Ha as [-> _]. done.
  - by eapply saved_terminal.
Qed.
End Saving.

Section Handlers.
Context `{PyLib}.

(** Neither the collection nor a file differs between [w0] and [w']. *)
Definition untouched (w0 w' : world) : Prop :=
  students w' = students w0 ∧ files w' = files w0.

Lemma untouched_start w0 w : keeps w0 w → untouched w0 w.
Proof. intros (? & ? & _). by split. Qed.

Lemma untouched_terminal w0 w w' : untouched w0 w → keeps w w' → untouched w0 w'.
Proof. intros [? ?] (? & ? & _). split; congruence. Qed.

(** A record [add_student] may append to the collection [l]: all four
    validations hold of it. *)
Definition valid_new (l : list student) (s : student) : Prop :=
  validate_name (name s) = true ∧
  validate_roll_number l (roll_number s) = true ∧
  validate_age (age s) = true ∧
  validate_cgpa (cgpa s) = true.

Definition added (w0 w' : world) : Prop :=
  untouched w0 w' ∨
  ∃ s, students w' = students w0 ++ [s] ∧ valid_new (students w0) s ∧ saved w0 w'.

Lemma add_student_outcome w0 : outcome w0 (added w0) add_student.
Proof.
  assert (∀ w, keeps w0 w → added w0 w) as Hstart
    by (intros; left; by apply untouched_start).
  assert (∀ w w', added w0 w → keeps w w' → added w0 w') as Hterm.
  { intros w w' [?|(s & Hs & ? & ?)] Hk; [left; by eapply untouched_terminal|right].
    exists s. split; [|split; [done|by eapply saved_terminal]].
    destruct Hk as [-> _]. done. }
  unfold add_student.
  apply outcome_bind; [done|auto with terminal|]. intros _.
  apply outcome_try_except; [done| |auto with terminal].
  eapply outcome_bind_yields;
    [done|auto with terminal|apply yields_input_until|]. intros name0 (line & Hname).
  apply outcome_get.
  eapply outcome_bind_yields;
    [done|auto with terminal|apply yields_input_until|]. intros roll (line1 & Hroll).
  eapply outcome_bind_yields;
    [done|auto with terminal|apply yields_input_until|]. intros age0 (line2 & Hage).
  eapply outcome_bind_yields;
    [done|auto with terminal|apply yields_input_until|]. intros cgpa0 (line3 & Hcgpa).
  apply outcome_get. apply outcome_put_save; [auto with terminal|].
  intros w' Hs Hsaved. right. eexists. split; [done|]. split; [|done].
  simpl in *. repeat case_match; simplify_eq. by repeat split.
Qed.
(** [s'] is [s] with one field replaced by a value that passed the
    validation of that field. *)
Inductive updated (s : student) : student → Prop :=
  | updated_name v : validate_name v = true → updated s (set_name v s)
  | updated_age v : validate_age v = true → updated s (set_age v s)
  | updated_cgpa v : validate_cgpa v = true → updated s (set_cgpa v s).

Definition updated_in (w0 w' : world) : Prop :=
  untouched w0 w' ∨
  ∃ i s s', students w0 !! i = Some s ∧ updated s s' ∧
            students w' = <[i := s']> (students w0) ∧ saved w0 w'.

Lemma update_student_outcome w0 : outcome w0 (updated_in w0) update_student.
Proof.
  assert (∀ w, keeps w0 w → updated_in w0 w) as Hstart
    by (intros; left; by apply untouched_start).
  assert (∀ w w', updated_in w0 w → keeps w w' → updated_in w0 w') as Hterm.
  { intros w w' [?|(i & s & s' & ? & ? & Hs & ?)] Hk;
      [left; by eapply untouched_terminal|right].
    exists i, s, s'. repeat split; [done..| |by eapply saved_terminal].
    destruct Hk as [-> _]. done. }
  unfold update_student.
  apply outcome_bind; [done|auto with terminal|]. intros _.
  eapply outcome_bind_yields;
    [done|auto with terminal|apply search_student_slot|]. intros [[i s]|] Hslot.
  2:{ apply outcome_terminal; [done|auto with terminal]. }
  simpl in Hslot.
  apply outcome_bind; [done|auto with terminal|]. intros _.
  apply outcome_try_except_ValueError; [done| |auto with terminal].
  apply outcome_bind; [done|auto with terminal|]. intros line.
  apply outcome_bind; [done|auto with terminal|]. intros choice.
  repeat case_match; try solve [apply outcome_terminal; [done|auto with terminal]].
  - apply outcome_bind; [done|auto with terminal|]. intros line1.
    cbv zeta. case_match; [|apply outcome_terminal; [done|auto with terminal]].
    apply outcome_get. apply outcome_put_save; [auto with terminal|].
    intros w' Hs Hsaved. right. eexists i, s, _.
    split; [done|]. split; [by apply updated_name|done].
  - apply outcome_bind; [done|auto with terminal|]. intros line1.
    apply outcome_bind; [done|auto with terminal|]. intros new_age.
    case_match; [|apply outcome_terminal; [done|auto with terminal]].
    apply outcome_get. apply outcome_put_save; [auto with terminal|].
    intros w' Hs Hsaved. right. eexists i, s, _.
    split; [done|]. split; [by apply updated_age|done].
  - apply outcome_bind; [done|auto with terminal|]. intros line1.
    apply outcome_bind; [done|auto with terminal|]. intros new_cgpa.
    case_match; [|apply outcome_terminal; [done|auto with terminal]].
    apply outcome_get. apply outcome_put_save; [auto with terminal|].
    intros w' Hs Hsaved. right. eexists i, s, _.
    split; [done|]. split; [by apply updated_cgpa|done].
Qed.
(** [list.remove] of the object at slot [i] deletes one slot: slot [i],
    or an earlier slot whose record equals it. *)
Lemma remove_from_delete i x j l :
  (j ≤ i)%nat → l !! (i - j)%nat = Some x →
  ∃ k y, (k ≤ i - j)%nat ∧ l !! k = Some y ∧
         (k = (i - j)%nat ∨ student_eqb y x = true) ∧
         remove_from i x j l = Some (delete k l).
Proof.
  revert j. induction l as [|y l IH]; intros j Hj Hx; [done|]. simpl.
  destruct (bool_decide (j = i) || student_eqb y x) eqn:Hhere.
  - exists 0%nat, y. repeat split; [lia|].
    apply orb_true_iff in Hhere as [Heq%bool_decide_eq_true| ?]; [left; lia|by right].
  - apply orb_false_iff in Hhere as [Hne%bool_decide_eq_false _].
    destruct (IH (S j)) as (k & z & Hk & Hz & Hor & ->); [lia| |].
    { replace (i - j)%nat with (S (i - S j)) in Hx by lia. done. }
    exists (S k), z. repeat split; [lia|done|].
    destruct Hor as [->|?]; [left; lia|by right].
Qed.

Definition deleted_in (w0 w' : world) : Prop :=
  untouched w0 w' ∨
  ∃ k y, students w0 !! k = Some y ∧ students w' = delete k (students w0) ∧
         saved w0 w'.

Lemma delete_student_outcome w0 : outcome w0 (deleted_in w0) delete_student.
Proof.
  assert (∀ w, keeps w0 w → deleted_in w0 w) as Hstart
    by (intros; left; by apply untouched_start).
  assert (∀ w w', deleted_in w0 w → keeps w w' → deleted_in w0 w') as Hterm.
  { intros w w' [?|(k & y & ? & Hs & ?)] Hk;
      [left; by eapply untouched_terminal|right].
    exists k, y. repeat split; [done| |by eapply saved_terminal].
    destruct Hk as [-> _]. done. }
  unfold delete_student.
  apply outcome_bind; [done|auto with terminal|]. intros _.
  eapply outcome_bind_yields;
    [done|auto with terminal|apply search_student_slot|]. intros [[i s]|] Hslot.
  2:{ apply outcome_terminal; [done|auto with terminal]. }
  simpl in Hslot.
  apply outcome_bind; [done|auto with terminal|]. intros line.
  cbv zeta. case_match; [|apply outcome_terminal; [done|auto with terminal]].
  apply outcome_get.
  destruct (remove_from_delete i s 0 (students w0)) as (k & y & _ & Hy & _ & Hrem);
    [lia|by rewrite Nat.sub_0_r|].
  unfold list_remove. rewrite Hrem.
  apply outcome_put_save; [auto with terminal|].
  intros w' Hs Hsaved. right. by exists k, y.
Qed.

Definition sorted_in (w0 w' : world) : Prop :=
  untouched w0 w' ∨ ∃ k, students w' = sort_by k (students w0) ∧ saved w0 w'.

Lemma sort_students_outcome w0 : outcome w0 (sorted_in w0) sort_students.
Proof.
  assert (∀ w, keeps w0 w → sorted_in w0 w) as Hstart
    by (intros; left; by apply untouched_start).
  assert (∀ w w', sorted_in w0 w → keeps w w' → sorted_in w0 w') as Hterm.
  { intros w w' [?|(k & Hs & ?)] Hk; [left; by eapply untouched_terminal|right].
    exists k. split; [|by eapply saved_terminal].
    destruct Hk as [-> _]. done. }
  unfold sort_students.
  apply outcome_bind; [done|auto with terminal|]. intros _.
  apply outcome_get. destruct (students w0) as [|s0 l0] eqn:Hl.
  { apply outcome_terminal; [done|auto with terminal]. }
  rewrite <- Hl.
  apply outcome_bind; [done|auto with terminal|]. intros _.
  apply outcome_try_except_ValueError; [done| |auto with terminal].
  apply outcome_bind; [done|auto with terminal|]. intros line.
  apply outcome_bind; [done|auto with terminal|]. intros choice.
  destruct (sort_choice choice) as [k|].
  - apply outcome_put_print_save; [auto with terminal|].
    intros w' Hs Hsaved. right. by exists k.
  - apply outcome_terminal; [done|]. case_match; auto with terminal.
Qed.
End Handlers.

(** * The changes the program makes to the collection *)

Section Steps.
Context `{PyLib}.

(** One change of the collection: nothing, a validated record appended,
    one field of one record replaced by a validated value, one slot
    deleted, or the collection sorted. *)
Inductive collection_step (l : list student) : list student → Prop :=
  | step_none : collection_step l l
  | step_add s : valid_new l s → collection_step l (l ++ [s])
  | step_update i s s' :
      l !! i = Some s → updated s s' → collection_step l (<[i := s']> l)
  | step_delete k y : l !! k = Some y → collection_step l (delete k l)
  | step_sort k : collection_step l (sort_by k l).

Lemma bind_ret_state {A B} (m : M A) (b : B) w : ((m;; mret b) w).2 = (m w).2.
Proof. unfold mbind, M_bind. by destruct (m w) as [[a|e] w']. Qed.

Lemma export_to_csv_students w : students (export_to_csv w).2 = students w.
Proof.
  destruct w as [l i o f cr cw ck t].
  unfold export_to_csv, try_except, mbind, M_bind, mret, M_ret, print, get_students,
    write_file.
  destruct l as [|s l]; cbn -[CSV_EXPORT_FILE csv_text]; [done|].
  by destruct (cw CSV_EXPORT_FILE).
Qed.

(** A method that makes at most one change. *)
Definition steps {A} (m : M A) : Prop :=
  ∀ w, collection_step (students w) (students (m w).2).

Lemma steps_terminal {A} (m : M A) : terminal_only m → steps m.
Proof. intros Hm w. destruct (Hm w) as [-> _]. constructor. Qed.

Lemma steps_bind {A B} (m : M A) (f : A → M B) :
  terminal_only m → (∀ a, steps (f a)) → steps (m ≫= f).
Proof.
  intros Hm Hf w. unfold mbind, M_bind. destruct (Hm w) as [Hs _].
  destruct (m w) as [[a|e] w']; simpl in *; rewrite <- Hs; [apply Hf|constructor].
Qed.

Lemma steps_then_ret {A B} (m : M A) (b : B) : steps m → steps (m;; mret b).
Proof. intros Hm w. rewrite bind_ret_state. apply Hm. Qed.

Lemma steps_try_except {A} (body : M A) handler :
  steps body → (∀ e, terminal_only (handler e)) → steps (try_except body handler).
Proof.
  intros Hb Hh w. unfold try_except. specialize (Hb w).
  destruct (body w) as [[a|e] w']; simpl in *; [done|].
  destruct (Hh e w') as [-> _]. done.
Qed.

Lemma dispatch_steps choice : steps (dispatch choice).
Proof.
  unfold dispatch.
  repeat case_match; try solve [apply steps_terminal; terminal_steps];
    apply steps_then_ret.
  - intros w.
    destruct (add_student_outcome w w) as [[-> _]|(s & -> & ? & _)]; [done| |].
    + constructor.
    + by constructor.
  - intros w.
    destruct (update_student_outcome w w) as [[-> _]|(i & s & s' & ? & ? & -> & _)];
      [done| |].
    + constructor.
    + by econstructor.
  - intros w.
    destruct (delete_student_outcome w w) as [[-> _]|(k & y & ? & -> & _)]; [done| |].
    + constructor.
    + by econstructor.
  - intros w.
    destruct (sort_students_outcome w w) as [[-> _]|(k & -> & _)]; [done| |];
      constructor.
  - intros w. rewrite export_to_csv_students. constructor.
Qed.

Lemma menu_round_steps : steps menu_round.
Proof.
  unfold menu_round.
  apply steps_bind; [auto with terminal|]. intros _.
  apply steps_try_except; [|intros; terminal_steps].
  apply steps_bind; [auto with terminal|]. intros choice.
  apply dispatch_steps.
Qed.

Lemma run_steps fuel w :
  rtc collection_step (students w) (students (run fuel w).2).
Proof.
  revert w. induction fuel as [|fuel IH]; intros w; simpl; [done|].
  pose proof (menu_round_steps w) as Hs.
  destruct (menu_round w) as [[[]|e] w']; simpl in *.
  - by eapply rtc_l.
  - by apply rtc_once.
  - by apply rtc_once.
Qed.
End Steps.

(** * The exceptions a method raises *)

(** [raises E m]: an exception that leaves [m] satisfies [E]. *)
Definition raises (E : exn → Prop) {A} (m : M A) : Prop :=
  ∀ w, match (m w).1 with Ok _ => True | Raise e => E e end.

Definition at_end_of_input (e : exn) : Prop := e = EOFError.
Definition at_end_or_ValueError (e : exn) : Prop :=
  e = ValueError ∨ at_end_of_input e.

Section Raises.
Context (E : exn → Prop).

Lemma raises_ret {A} (a : A) : raises E (mret a).
Proof. by intros w. Qed.

Lemma raises_raise {A} e : E e → raises E (raise (A:=A) e).
Proof. by intros He w. Qed.

Lemma raises_bind {A B} (m : M A) (f : A → M B) :
  raises E m → (∀ a, raises E (f a)) → raises E (m ≫= f).
Proof.
  intros Hm Hf w. unfold mbind, M_bind. specialize (Hm w).
  destruct (m w) as [[a|e] w']; simpl in *; [apply Hf|done].
Qed.

Lemma raises_try_except {A} (body : M A) handler :
  (∀ e, raises E (handler e)) → raises E (try_except body handler).
Proof.
  intros Hh w. unfold try_except.
  destruct (body w) as [[a|e] w']; simpl; [done|apply Hh].
Qed.

Lemma raises_print m : raises E (print m).
Proof. by intros w. Qed.

Lemma raises_print_all `{PyLib} ms : raises E (print_all ms).
Proof. by intros w. Qed.

Lemma raises_get_students : raises E get_students.
Proof. by intros w. Qed.

Lemma raises_put_students l : raises E (put_students l).
Proof. by intros w. Qed.

Lemma raises_input : E EOFError → raises E input.
Proof. intros He w. unfold input. by destruct (stdin w). Qed.

Lemma raises_input_until {A} (attempt : pystr → A + msg) :
  E EOFError → raises E (input_until attempt).
Proof.
  intros He w. unfold input_until.
  assert (∀ lines out, match (input_until_lines attempt lines out).1.1 with
                       | Ok _ => True | Raise e => E e end) as Hl.
  { induction lines as [|line rest IH]; intros out; simpl; [done|].
    destruct (attempt line); simpl; [done|apply IH]. }
  specialize (Hl (stdin w) (stdout w)).
  by destruct (input_until_lines attempt (stdin w) (stdout w)) as [[[a|e] rest] out'].
Qed.

Lemma raises_parse_int `{PyLib} line : E ValueError → raises E (parse_int line).
Proof. intros He w. unfold parse_int. by destruct (py_int line). Qed.

Lemma raises_parse_float `{PyLib} line : E ValueError → raises E (parse_float line).
Proof. intros He w. unfold parse_float. by destruct (py_float line). Qed.

Lemma raises_save_students `{PyLib} : raises E save_students.
Proof. intros w. by destruct (save_students_effect w) as (-> & _). Qed.
End Raises.

Lemma raises_try_except_ValueError {A} (body handler : M A) :
  raises at_end_or_ValueError body → raises at_end_of_input handler →
  raises at_end_of_input (try_except_ValueError body handler).
Proof.
  intros Hb Hh w. unfold try_except_ValueError, try_except. specialize (Hb w).
  destruct (body w) as [[a|e] w']; simpl in *; [done|].
  destruct e; try apply Hh; by destruct Hb.
Qed.

Lemma at_end_of_input_EOFError : at_end_of_input EOFError.
Proof. done. Qed.

Lemma at_end_or_ValueError_EOFError : at_end_or_ValueError EOFError.
Proof. by right. Qed.

Lemma at_end_or_ValueError_ValueError : at_end_or_ValueError ValueError.
Proof. by left. Qed.

Create HintDb raises discriminated.
#[global] Hint Resolve raises_ret raises_raise raises_print raises_print_all
  raises_get_students raises_put_students raises_input raises_input_until
  raises_parse_int raises_parse_float raises_save_students
  at_end_of_input_EOFError at_end_or_ValueError_EOFError
  at_end_or_ValueError_ValueError : raises.

Ltac raises_steps :=
  repeat first
    [ solve [eauto with raises]
    | apply raises_bind; [|intros]
    | apply raises_try_except_ValueError
    | apply raises_try_except; intros
    | case_match ].

Section RaisesMethods.
Context `{PyLib}.

Lemma raises_view_all_students E students_list :
  E EOFError → raises E (view_all_students students_list).
Proof. intros. unfold view_all_students. raises_steps. Qed.
#[local] Hint Resolve raises_view_all_students : raises.

Lemma raises_show_matches E matches none :
  E EOFError → raises E (show_matches matches none).
Proof. intros. unfold show_matches. destruct matches; raises_steps. Qed.
#[local] Hint Resolve raises_show_matches : raises.

Lemma raises_search_student : raises at_end_of_input search_student.
Proof. unfold search_student. raises_steps. Qed.

Lemma raises_update_student : raises at_end_of_input update_student.
Proof.
  unfold update_student.
  apply raises_bind; [auto with raises|]. intros _.
  apply raises_bind; [apply raises_search_student|]. intros [[i s]|]; raises_steps.
Qed.

(** The same, started on the collection [l0]. *)
Definition raises_at (l0 : list student) (E : exn → Prop) {A} (m : M A) : Prop :=
  ∀ w, students w = l0 → match (m w).1 with Ok _ => True | Raise e => E e end.

Lemma raises_raises_at l0 E {A} (m : M A) : raises E m → raises_at l0 E m.
Proof. intros Hm w _. apply Hm. Qed.

Lemma raises_at_bind l0 E {A B} (P : A → Prop) (m : M A) (f : A → M B) :
  terminal_only m → raises E m → yields l0 P m →
  (∀ a, P a → raises_at l0 E (f a)) → raises_at l0 E (m ≫= f).
Proof.
  intros Ht Hm Hy Hf w Hw. unfold mbind, M_bind.
  specialize (Hm w). specialize (Hy w Hw). destruct (Ht w) as [Hs _].
  destruct (m w) as [[a|e] w']; simpl in *; [|done].
  apply Hf; [done|congruence].
Qed.

Lemma raises_at_get l0 E {B} (f : list student → M B) :
  raises_at l0 E (f l0) → raises_at l0 E (get_students ≫= f).
Proof. intros Hf w Hw. unfold mbind, M_bind, get_students. rewrite Hw. by apply Hf. Qed.

Lemma raises_delete_student : raises at_end_of_input delete_student.
Proof.
  cut (∀ l0, raises_at l0 at_end_of_input delete_student).
  { intros Hl w. by apply (Hl (students w)). }
  intros l0. unfold delete_student.
  apply (raises_at_bind _ _ (λ _, True)); [auto with terminal|auto with raises| |].
  { by intros w _. }
  intros _ _.
  apply (raises_at_bind _ _ (slot_of l0));
    [auto with terminal|apply raises_search_student|apply search_student_slot|].
  intros [[i s]|] Hslot; [|apply raises_raises_at; auto with raises].
  simpl in Hslot.
  apply (raises_at_bind _ _ (λ _, True)); [auto with terminal|auto with raises| |].
  { intros w _. by destruct (input w).1. }
  intros line _. cbv zeta. case_match; [|apply raises_raises_at; auto with raises].
  apply raises_at_get.
  destruct (remove_from_delete i s 0 l0) as (k & y & _ & _ & _ & Hrem);
    [lia|by rewrite Nat.sub_0_r|].
  unfold list_remove. rewrite Hrem. apply raises_raises_at. raises_steps.
Qed.

Lemma add_student_returns w : (add_student w).1 = Ok tt.
Proof.
  unfold add_student, mbind at 1, M_bind at 1, print, try_except.
  set (w1 := set_stdout _ w).
  match goal with |- context [?body w1] => destruct (body w1) as [[[]|e] w2] end; done.
Qed.
End RaisesMethods.

(** * Invariants of the collection *)

Section Invariants.
Context `{PyLib}.

Lemma validate_roll_number_spec l r :
  validate_roll_number l r = true ↔ 0 < r ∧ r ∉ (roll_number <$> l).
Proof.
  unfold validate_roll_number.
  rewrite andb_true_iff, Z.ltb_lt, negb_true_iff.
  apply and_iff_compat_l. rewrite list_elem_of_fmap. split.
  - intros Hex (s & -> & Hs). apply not_true_iff_false in Hex. apply Hex.
    apply existsb_exists. exists s. split; [by apply list_elem_of_In|apply Z.eqb_refl].
  - intros Hno. apply not_true_iff_false. intros (s & Hs & Heq%Z.eqb_eq)%existsb_exists.
    apply Hno. exists s. split; [done|by apply list_elem_of_In].
Qed.

Lemma updated_roll_number s s' : updated s s' → roll_number s' = roll_number s.
Proof. by intros []. Qed.

(** A record all of whose fields pass their validation. *)
Definition valid_record (s : student) : Prop :=
  validate_name (name s) = true ∧ 0 < roll_number s ∧
  validate_age (age s) = true ∧ validate_cgpa (cgpa s) = true.

Lemma collection_step_NoDup l l' :
  collection_step l l' →
  NoDup (roll_number <$> l) → NoDup (roll_number <$> l').
Proof.
  intros [|s (_ & Hroll & _)|i s s' Hs Hup|k y Hy|k] Hl.
  - done.
  - apply validate_roll_number_spec in Hroll as [_ Hnew].
    rewrite fmap_app. apply NoDup_app. split; [done|]. split; [|apply NoDup_singleton].
    intros r Hr ->%list_elem_of_singleton. done.
  - rewrite list_fmap_insert, (updated_roll_number s s') by done.
    rewrite list_insert_id; [done|]. by rewrite list_lookup_fmap, Hs.
  - rewrite list_fmap_delete. eapply sublist_NoDup; [done|]. apply sublist_delete.
  - by rewrite sort_by_perm.
Qed.

Lemma collection_step_valid l l' :
  collection_step l l' → Forall valid_record l → Forall valid_record l'.
Proof.
  intros [|s (? & Hroll & ? & ?)|i s s' Hs Hup|k y Hy|k] Hl.
  - done.
  - apply validate_roll_number_spec in Hroll as [? _].
    apply Forall_app. split; [done|]. by repeat constructor.
  - apply Forall_insert; [done|].
    destruct (Forall_lookup_1 _ _ _ _ Hl Hs) as (? & ? & ? & ?).
    destruct Hup; by repeat split.
  - by apply Forall_delete.
  - by rewrite sort_by_perm.
Qed.

Lemma rtc_collection_step_invariant (I : list student → Prop) l l' :
  (∀ l l', collection_step l l' → I l → I l') →
  rtc collection_step l l' → I l → I l'.
Proof. intros Hstep. induction 1; eauto. Qed.

(** X13. Roll numbers stay distinct: when no two records of the
    collection share a roll number, none do after any number of rounds
    of the menu, whatever is typed. Adding checks the new roll number
    against the collection; updating, deleting and sorting leave the
    roll numbers alone. *)
Theorem roll_numbers_stay_distinct (fuel : nat) (w : world) :
  NoDup (roll_number <$> students w) →
  NoDup (roll_number <$> students (run fuel w).2).
Proof.
  apply (rtc_collection_step_invariant (λ l, NoDup (roll_number <$> l))).
  - apply collection_step_NoDup.
  - apply run_steps.
Qed.

(** X14. Records stay valid: when every record of the collection has a name
    of letters and spaces, a positive roll number, an age from 5 to 120
    and a CGPA from 0 to 4, the same holds after any number of rounds of
    the menu. *)
Theorem records_stay_valid (fuel : nat) (w : world) :
  Forall valid_record (students w) →
  Forall valid_record (students (run fuel w).2).
Proof.
  apply (rtc_collection_step_invariant (Forall valid_record)).
  - apply collection_step_valid.
  - apply run_steps.
Qed.

(** X15. Started without a data file, the program holds at every moment a
    collection of valid records with distinct roll numbers. *)
Theorem fresh_start_invariants (fuel : nat) (w : world) :
  files w !! DATA_FILE = None →
  NoDup (roll_number <$> students (main fuel w).2) ∧
  Forall valid_record (students (main fuel w).2).
Proof.
  intros Hnone. unfold main, init, mbind, M_bind, put_students.
  destruct (load_students_cases w) as (l & Hl & _ & _ & Hcase).
  rewrite Hnone in Hcase. destruct Hcase as [-> _].
  destruct (load_students w) as [r w0]; cbn [fst snd] in *. subst r.
  split.
  - apply (rtc_collection_step_invariant (λ l, NoDup (roll_number <$> l))
             [] _ collection_step_NoDup (run_steps fuel (set_students [] w0))).
    constructor.
  - apply (rtc_collection_step_invariant (Forall valid_record)
             [] _ collection_step_valid (run_steps fuel (set_students [] w0))).
    constructor.
Qed.
End Invariants.

Lemma roll_numbers_stay_distinct_witness :
  NoDup (roll_number <$> students
    (run 7 (set_students [ann; bob]
              (world0 ["1"; "Dan"; "7"; "21"; "3.25"; "0"]%string))).2).
Proof.
  apply (@roll_numbers_stay_distinct ascii_py 7
           (set_students [ann; bob]
              (world0 ["1"; "Dan"; "7"; "21"; "3.25"; "0"]%string))).
  simpl. compute_done.
Defined.

Lemma records_stay_valid_witness :
  Forall (@valid_record ascii_py) (students
    (run 7 (set_students [ann; bob]
              (world0 ["1"; "Dan"; "7"; "21"; "3.25"; "0"]%string))).2).
Proof.
  apply (@records_stay_valid ascii_py 7
           (set_students [ann; bob]
              (world0 ["1"; "Dan"; "7"; "21"; "3.25"; "0"]%string))).
  simpl. repeat constructor.
Defined.

Lemma fresh_start_invariants_witness :
  NoDup (roll_number <$> students
    (main 7 (world0 ["1"; "Dan"; "7"; "21"; "3.25"; "0"]%string)).2) ∧
  Forall (@valid_record ascii_py) (students
    (main 7 (world0 ["1"; "Dan"; "7"; "21"; "3.25"; "0"]%string)).2).
Proof.
  apply (@fresh_start_invariants ascii_py 7
           (world0 ["1"; "Dan"; "7"; "21"; "3.25"; "0"]%string)).
  apply lookup_empty.
Defined.

(** * What the handlers do *)

Section Effects.
Context `{PyLib}.

(** X9. [add_student] never raises. It leaves the collection and the files
    alone, or it appends one record to the end of the collection: a record
    whose name passed [validate_name], whose roll number is positive and
    not the roll number of a record of the collection, whose age is from
    5 to 120 and whose CGPA passed [validate_cgpa]; the collection is then
    saved. *)
Theorem add_student_effect (w : world) :
  let w' := (add_student w).2 in
  (add_student w).1 = Ok tt ∧
  ((students w' = students w ∧ files w' = files w) ∨
   ∃ s, students w' = students w ++ [s] ∧
        validate_name (name s) = true ∧
        0 < roll_number s ∧ (roll_number s ∉ roll_number <$> students w) ∧
        5 ≤ age s ≤ 120 ∧ validate_cgpa (cgpa s) = true ∧
        saved w w').
Proof.
  split; [apply add_student_returns|].
  destruct (add_student_outcome w w) as [?|(s & ? & (? & Hroll & Hage & ?) & ?)];
    [done|by left|right].
  apply validate_roll_number_spec in Hroll as [? ?].
  unfold validate_age in Hage. apply andb_true_iff in Hage as [?%Z.leb_le ?%Z.leb_le].
  exists s. by repeat split.
Qed.

(** X10. [update_student] changes at most one field of one record, and only
    to a value that passed the validation of that field: it leaves the
    collection and the files alone, or it replaces the record at one slot
    by the same record with a new name, age or CGPA and saves the
    collection. The roll numbers, the number of records and every other
    slot are as before. It raises only at the end of the input. *)
Theorem update_student_frame (w : world) :
  let w' := (update_student w).2 in
  match (update_student w).1 with Ok _ => True | Raise e => e = EOFError end ∧
  roll_number <$> students w' = roll_number <$> students w ∧
  ((students w' = students w ∧ files w' = files w) ∨
   ∃ i s s', students w !! i = Some s ∧ updated s s' ∧
     students w' = <[i := s']> (students w) ∧
     length (students w') = length (students w) ∧
     (∀ j, j ≠ i → students w' !! j = students w !! j) ∧
     saved w w').
Proof.
  split; [apply raises_update_student|].
  destruct (update_student_outcome w w) as [[Hs Hf]|(i & s & s' & Hi & Hup & Hs & ?)];
    [done| |].
  - rewrite Hs. split; [done|by left].
  - split.
    + rewrite Hs, list_fmap_insert, (updated_roll_number s s') by done.
      apply list_insert_id. by rewrite list_lookup_fmap, Hi.
    + right. exists i, s, s'. repeat split; try done.
      * rewrite Hs. apply length_insert.
      * intros j Hj. rewrite Hs. by apply list_lookup_insert_ne.
Qed.

(** X11. [delete_student] leaves the collection and the files alone, or it
    deletes one slot of the collection and saves the collection: one
    record less, the others in their order. When the roll numbers were
    distinct, the roll number of the deleted record is gone. It never
    fails in [list.remove]: it raises only at the end of the input. *)
Theorem delete_student_effect (w : world) :
  let w' := (delete_student w).2 in
  match (delete_student w).1 with Ok _ => True | Raise e => e = EOFError end ∧
  ((students w' = students w ∧ files w' = files w) ∨
   ∃ k y, students w !! k = Some y ∧
     students w' = delete k (students w) ∧
     S (length (students w')) = length (students w) ∧
     (NoDup (roll_number <$> students w) →
      roll_number y ∉ (roll_number <$> students w')) ∧
     saved w w').
Proof.
  split; [apply raises_delete_student|].
  destruct (delete_student_outcome w w) as [?|(k & y & Hy & Hs & ?)]; [done|by left|].
  right. exists k, y. repeat split; try done.
  - rewrite Hs, length_delete by eauto.
    apply lookup_lt_Some in Hy. lia.
  - intros Hdup. rewrite Hs, list_fmap_delete, delete_take_drop.
    assert ((roll_number <$> students w) !! k = Some (roll_number y)) as Hk
      by (by rewrite list_lookup_fmap, Hy).
    rewrite <- (take_drop_middle _ _ _ Hk) in Hdup.
    apply NoDup_app in Hdup as (_ & Hleft & [Hright _]%NoDup_cons).
    intros [Hin|Hin]%elem_of_app; [|done].
    apply (Hleft _ Hin). by left.
Qed.


(** X12. The record [search_student] returns stands in the collection, at the
    slot returned with it; searching changes nothing but the terminal,
    and raises only at the end of the input. *)
Theorem search_student_finds (w : world) :
  keeps w (search_student w).2 ∧
  match (search_student w).1 with
  | Ok (Some (i, s)) => students w !! i = Some s
  | Ok None => True
  | Raise e => e = EOFError
  end.
Proof.
  split; [apply terminal_only_search_student|].
  pose proof (search_student_slot (students w) w eq_refl) as Hslot.
  pose proof (raises_search_student w) as Hraise.
  destruct (search_student w).1 as [[[i s]|]|e]; done.
Qed.
End Effects.

(** * Names *)

Section Names.
Context `{PyLib}.

Lemma drop_while_nil p s : drop_while p s = [] ↔ Forall (λ c, p c = true) s.
Proof.
  induction s as [|c s IH]; simpl; [by split|].
  destruct (p c) eqn:Hc.
  - rewrite IH. split; [by constructor|by intros [_ ?]%Forall_cons].
  - split; [done|]. intros [? _]%Forall_cons. congruence.
Qed.

Lemma Forall_drop_while p s :
  Forall (λ c, p c = true) (drop_while p s) ↔ Forall (λ c, p c = true) s.
Proof.
  induction s as [|c s IH]; simpl; [done|].
  destruct (p c) eqn:Hc; [|done].
  rewrite IH. split; [by constructor|by intros [_ ?]%Forall_cons].
Qed.

(** Only a blank string is stripped to the empty string. *)
Lemma strip_nil s : strip s = [] ↔ Forall (λ c, py_isspace c = true) s.
Proof.
  unfold strip.
  rewrite <- (reverse_involutive []), (inj_iff reverse), reverse_nil.
  by rewrite drop_while_nil, Forall_reverse, Forall_drop_while.
Qed.

(** X17. [validate_name] accepts exactly the names made of letters and white
    space that are not blank. So an accepted name holds a letter, and a
    name with a digit or a punctuation mark is rejected. *)
Theorem validate_name_letters (n : pystr) :
  (validate_name n = true ↔
     (∀ c, c ∈ n → py_isalpha c = true ∨ py_isspace c = true) ∧
     (∃ c, c ∈ n ∧ py_isspace c = false)) ∧
  (validate_name n = true → ∃ c, c ∈ n ∧ py_isalpha c = true).
Proof.
  assert (validate_name n = true ↔
     (∀ c, c ∈ n → py_isalpha c = true ∨ py_isspace c = true) ∧
     (∃ c, c ∈ n ∧ py_isspace c = false)) as Hiff.
  { unfold validate_name.
    rewrite andb_true_iff, negb_true_iff, bool_decide_eq_false, strip_nil.
    rewrite forallb_forall. split.
    - intros [Hblank Hall]. split.
      + intros c' Hc'%list_elem_of_In. by apply orb_true_iff, Hall.
      + apply not_Forall_Exists in Hblank; [|apply _].
        apply Exists_exists in Hblank as (c & Hc & Hs).
        exists c. split; [done|]. by apply not_true_is_false.
    - intros [Hall (c & Hc & Hs)]. split.
      + intros HF. rewrite list.Forall_forall in HF. specialize (HF c Hc). congruence.
      + intros c' Hc'%list_elem_of_In. by apply orb_true_iff, Hall. }
  split; [done|].
  intros [Hall (c & Hc & Hs)]%Hiff. exists c. split; [done|].
  destruct (Hall c Hc); congruence.
Qed.
End Names.

(** * Saving *)

Section SavingFiles.
Context `{PyLib}.

Lemma data_file_not_csv : DATA_FILE ≠ CSV_EXPORT_FILE.
Proof. by vm_compute. Qed.

(** X18. [save_students] never raises and never changes the collection or the
    export file. When the data file can be written it holds the text of
    the collection afterwards, and so does the backup of this moment when
    that can be written; when the backup cannot be written the error is
    printed and the data file keeps the new text. When the data file
    cannot be written the error is printed and no file changes. *)
Theorem save_students_reports_failure (w : world) :
  let w' := (save_students w).2 in
  let text := json_dump (students w) in
  let backup := backup_file (clock w (ticks w)) in
  (save_students w).1 = Ok tt ∧ students w' = students w ∧
  files w' !! CSV_EXPORT_FILE = files w !! CSV_EXPORT_FILE ∧
  (if can_write w DATA_FILE then
     files w' !! DATA_FILE = Some text ∧
     if can_write w backup
     then files w' !! backup = Some text ∧ stdout w' = stdout w
     else files w' !! backup = files w !! backup ∧
          stdout w' = stdout w ++ [ErrorSaving OSError]
   else files w' = files w ∧ stdout w' = stdout w ++ [ErrorSaving OSError]).
Proof.
  destruct (save_students_effect w) as (Hr & Hs & _ & _ & _ & Hcase).
  cbv zeta in *. split; [done|]. split; [done|].
  destruct (can_write w DATA_FILE).
  - destruct (can_write w (backup_file (clock w (ticks w)))); destruct Hcase as [-> ->].
    + rewrite !lookup_insert_ne by
        (apply backup_file_not_csv || apply data_file_not_csv).
      split; [done|]. split; [|split; [apply lookup_insert_eq|done]].
      rewrite lookup_insert_ne by apply backup_file_not_data_file.
      apply lookup_insert_eq.
    + rewrite lookup_insert_ne by apply data_file_not_csv.
      split; [done|]. split; [apply lookup_insert_eq|]. split; [|done].
      apply lookup_insert_ne. intros Heq. by eapply backup_file_not_data_file.
  - destruct Hcase as [-> ->]. by repeat split.
Qed.
End SavingFiles.

(** * The data file follows the collection *)

(** The paths that can be written are the same in [w'] as in [w]. *)
Definition same_permissions (w w' : world) : Prop := can_write w' = can_write w.

#[global] Instance same_permissions_preorder : PreOrder same_permissions.
Proof.
  split.
  - intros w. by unfold same_permissions.
  - intros w1 w2 w3. unfold same_permissions. congruence.
Qed.

Lemma terminal_only_same_permissions {A} (m : M A) :
  terminal_only m → respects same_permissions m.
Proof. intros Hm w. by destruct (Hm w) as (_ & _ & _ & ? & _). Qed.

Section Permissions.
Context `{PyLib}.

Lemma same_permissions_put_students l : respects same_permissions (put_students l).
Proof. by intros w. Qed.

Lemma same_permissions_write_file path text :
  respects same_permissions (write_file path text).
Proof. intros w. unfold same_permissions, write_file. by destruct (can_write w path). Qed.

Lemma same_permissions_save_students : respects same_permissions save_students.
Proof. intros w. by destruct (save_students_effect w) as (_ & _ & _ & _ & ? & _). Qed.
End Permissions.

Create HintDb permissions discriminated.
#[global] Hint Resolve respects_ret respects_raise same_permissions_put_students
  same_permissions_write_file same_permissions_save_students : permissions.
#[global] Hint Extern 1 (respects same_permissions _) =>
  apply terminal_only_same_permissions; solve [auto with terminal] : permissions.

Ltac permissions_steps :=
  repeat first
    [ solve [eauto with permissions typeclass_instances]
    | apply (respects_bind same_permissions); [|intros]
    | apply (respects_try_except_ValueError same_permissions)
    | apply (respects_try_except same_permissions); [|intros]
    | case_match ].

Section InSync.
Context `{PyLib}.

Lemma same_permissions_add_student : respects same_permissions add_student.
Proof. unfold add_student. permissions_steps. Qed.

Lemma same_permissions_update_student : respects same_permissions update_student.
Proof. unfold update_student. permissions_steps. Qed.

Lemma same_permissions_delete_student : respects same_permissions delete_student.
Proof. unfold delete_student. permissions_steps. Qed.

Lemma same_permissions_sort_students : respects same_permissions sort_students.
Proof. unfold sort_students. permissions_steps. Qed.

Lemma same_permissions_export_to_csv : respects same_permissions export_to_csv.
Proof. unfold export_to_csv. permissions_steps. Qed.

(** The data file can be written and holds the text of the collection. *)
Definition in_sync (w : world) : Prop :=
  can_write w DATA_FILE = true ∧
  files w !! DATA_FILE = Some (json_dump (students w)).

Definition persists {A} (m : M A) : Prop := ∀ w, in_sync w → in_sync (m w).2.

Lemma persists_terminal {A} (m : M A) : terminal_only m → persists m.
Proof.
  intros Hm w [Hc Hf]. destruct (Hm w) as (Hs & Hfs & _ & Hcw & _).
  split; [by rewrite Hcw|by rewrite Hfs, Hs].
Qed.

Lemma persists_bind {A B} (m : M A) (f : A → M B) :
  persists m → (∀ a, persists (f a)) → persists (m ≫= f).
Proof.
  intros Hm Hf w Hw. unfold mbind, M_bind. specialize (Hm w Hw).
  destruct (m w) as [[a|e] w']; simpl in *; [by apply Hf|done].
Qed.

Lemma persists_try_except {A} (body : M A) handler :
  persists body → (∀ e, persists (handler e)) → persists (try_except body handler).
Proof.
  intros Hb Hh w Hw. unfold try_except. specialize (Hb w Hw).
  destruct (body w) as [[a|e] w']; simpl in *; [done|by apply Hh].
Qed.

Lemma persists_outcome {A} (m : M A) (Q : world → world → Prop) :
  respects same_permissions m →
  (∀ w, outcome w (Q w) m) →
  (∀ w w', Q w w' → untouched w w' ∨ saved w w') →
  persists m.
Proof.
  intros Hp Hm HQ w [Hc Hf]. specialize (Hp w). unfold same_permissions in Hp.
  split; [by rewrite Hp|].
  destruct (HQ w _ (Hm w w (reflexivity _))) as [[Hs Hfs]|Hsaved].
  - by rewrite Hfs, Hs.
  - unfold saved in Hsaved. by rewrite Hc in Hsaved.
Qed.

Lemma export_to_csv_data_file w :
  files (export_to_csv w).2 !! DATA_FILE = files w !! DATA_FILE.
Proof.
  destruct w as [l i o f cr cw ck t].
  unfold export_to_csv, try_except, mbind, M_bind, mret, M_ret, print, get_students,
    write_file.
  destruct l as [|s l]; cbn -[CSV_EXPORT_FILE DATA_FILE csv_text]; [done|].
  destruct (cw CSV_EXPORT_FILE); cbn -[CSV_EXPORT_FILE DATA_FILE csv_text]; [|done].
  apply lookup_insert_ne. intros Heq. by apply data_file_not_csv.
Qed.

Lemma persists_dispatch choice : persists (dispatch choice).
Proof.
  unfold dispatch.
  repeat case_match; try solve [apply persists_terminal; terminal_steps];
    (apply persists_bind; [|intros; apply persists_terminal; auto with terminal]).
  - apply (persists_outcome _ added);
      [apply same_permissions_add_student|apply add_student_outcome|].
    intros w w' [?|(s & _ & _ & ?)]; auto.
  - apply (persists_outcome _ updated_in);
      [apply same_permissions_update_student|apply update_student_outcome|].
    intros w w' [?|(i & s & s' & _ & _ & _ & ?)]; auto.
  - apply (persists_outcome _ deleted_in);
      [apply same_permissions_delete_student|apply delete_student_outcome|].
    intros w w' [?|(k & y & _ & _ & ?)]; auto.
  - apply (persists_outcome _ sorted_in);
      [apply same_permissions_sort_students|apply sort_students_outcome|].
    intros w w' [?|(k & _ & ?)]; auto.
  - intros w [Hc Hf]. split.
    + by rewrite (same_permissions_export_to_csv w).
    + by rewrite export_to_csv_data_file, export_to_csv_students.
Qed.

Lemma persists_menu_round : persists menu_round.
Proof.
  unfold menu_round.
  apply persists_bind; [apply persists_terminal; auto with terminal|]. intros _.
  apply persists_try_except; [|intros; apply persists_terminal; terminal_steps].
  apply persists_bind; [apply persists_terminal; auto with terminal|]. intros choice.
  apply persists_dispatch.
Qed.

(** X19. No change is lost: when the data file can be written and holds
    the text of the collection, it still does after any number of rounds
    of the menu, whatever is typed; every handler that changes the
    collection saves it, and the export writes to another file. So a
    program started afterwards, when the json library reads that text
    back as the collection, loads the collection as it was left. *)
Theorem data_file_stays_in_sync (fuel : nat) (w : world) :
  can_write w DATA_FILE = true →
  files w !! DATA_FILE = Some (json_dump (students w)) →
  let w' := (run fuel w).2 in
  files w' !! DATA_FILE = Some (json_dump (students w')) ∧
  (can_read w' DATA_FILE = true →
   json_load (json_dump (students w')) = Some (students w') →
   (load_students w').1 = Ok (students w')).
Proof.
  intros Hc Hf.
  assert (in_sync (run fuel w).2) as [_ Hsync].
  { assert (in_sync w) as Hw by done. clear Hc Hf.
    revert w Hw. induction fuel as [|fuel IH]; intros w Hw; simpl; [done|].
    pose proof (persists_menu_round w Hw) as Hr.
    destruct (menu_round w) as [[[]|e] w']; simpl in *; auto. }
  cbv zeta. split; [done|]. intros Hr Hjson.
  destruct (load_students_cases (run fuel w).2) as (l & Hl & _ & _ & Hcase).
  rewrite Hsync, Hr, Hjson in Hcase. destruct Hcase as [-> _]. done.
Qed.
End InSync.

Lemma data_file_stays_in_sync_witness :
  files (run 7 (save_students (set_students [ann; bob]
           (world0 ["1"; "Dan"; "7"; "21"; "3.25"; "0"]%string))).2).2 !! DATA_FILE
  = Some (json_dump (students (run 7 (save_students (set_students [ann; bob]
           (world0 ["1"; "Dan"; "7"; "21"; "3.25"; "0"]%string))).2).2)).
Proof.
  apply (@data_file_stays_in_sync ascii_py 7
           (save_students (set_students [ann; bob]
              (world0 ["1"; "Dan"; "7"; "21"; "3.25"; "0"]%string))).2).
  - vm_compute. reflexivity.
  - vm_compute. reflexivity.
Defined.
